(** * Skyscraper Stacker: placement validation and rigid-body bookkeeping

    A shallow embedding of [src/physics.js] (class [PhysicsWorld]),
    [src/blocks.js] (the block catalogue and [createBlockBody]) and
    [src/controls.js] ([snapPositionToGrid], [getPlacementPosition]),
    followed by the properties the specification states about them.

    JavaScript numbers are modelled by exact rationals [Q]: every operation
    the code applies to them ([+], [-], [*], [/], [Math.abs], [Math.max],
    [Math.min], [Math.round], [<], [<=], [>=], [>]) is the exact one, and
    NaN and the infinities are left out (the specification rules them out
    as caller bugs).  Objects with identity (CANNON bodies, THREE meshes)
    are references into a store. *)

From Stdlib Require Import QArith Qabs Qround Qminmax ZArith Lia Lqa String List Sorted.
From stdpp Require Import gmap list.

Open Scope Q_scope.

(** ** JavaScript numbers *)

Module Js.

(** [a < b] on numbers. *)
Definition ltb (a b : Q) : bool := negb (Qle_bool b a).

(** [a <= b] on numbers. *)
Definition leb (a b : Q) : bool := Qle_bool a b.

(** [a > b] and [a >= b] on numbers. *)
Definition gtb (a b : Q) : bool := ltb b a.
Definition geb (a b : Q) : bool := leb b a.

(** [Math.round]: the nearest integer, a tie going to the larger one. *)
Definition round (a : Q) : Q := inject_Z (Qfloor (a + (1 # 2))).

End Js.

(** A vector of three numbers ([CANNON.Vec3], [THREE.Vector3], and the
    plain [{ x, y, z }] objects the callers pass). *)
Record Vec3 : Type := mkVec3 { x : Q; y : Q; z : Q }.

(** ** The parts of cannon-es the code touches *)

Module CANNON.

(** [shape instanceof CANNON.Box] is decided by the constructor. *)
Inductive Shape : Type :=
| Box (halfExtents : Vec3)
| Sphere (radius : Q)
| Plane.

(** The two ways the code builds a material: [new Material('default')]
    and [new Material({ friction, restitution })]. *)
Inductive Material : Type :=
| NamedMaterial (name : string)
| OptionsMaterial (friction restitution : Q).

(** The broadphase algorithms a world can be given. *)
Inductive Broadphase : Type := NaiveBroadphase | SAPBroadphase | GridBroadphase.

Record ContactMaterial : Type := mkContactMaterial {
  materials : Material * Material;
  friction : Q;
  restitution : Q;
  contactEquationStiffness : Q;
  contactEquationRelaxation : Q
}.

End CANNON.

Import CANNON.

(** A reference to a JavaScript object: bodies and meshes are compared by
    identity ([indexOf], [===]). *)
Definition ref : Type := nat.

(** [body.userData = { mesh, blockType }]. *)
Record UserData : Type := mkUserData {
  mesh : option ref;
  blockType : option string
}.

(** A [CANNON.Body], with the fields this program reads or writes.  A field
    the program has not assigned is [None]. *)
Record Body : Type := mkBody {
  mass : Q;
  position : Vec3;
  shapes : list Shape;
  material : option Material;
  linearDamping : option Q;
  angularDamping : option Q;
  userData : option UserData
}.

(** [body.material = m]. *)
Definition set_material (m : Material) (b : Body) : Body :=
  {| mass := b.(mass); position := b.(position); shapes := b.(shapes);
     material := Some m;
     linearDamping := b.(linearDamping); angularDamping := b.(angularDamping);
     userData := b.(userData) |}.

(** The [CANNON.World] container.  The bodies it simulates are kept as a
    set: the collaborator holds each body at most once and the program never
    observes their order. *)
Record World : Type := mkWorld {
  gravity : Vec3;
  broadphase : Broadphase;
  solver_iterations : Z;
  allowSleep : bool;
  contactmaterials : list ContactMaterial;
  defaultContactMaterial : option ContactMaterial;
  world_bodies : gset ref
}.

Definition World_addBody (b : ref) (w : World) : World :=
  {| gravity := w.(gravity); broadphase := w.(broadphase);
     solver_iterations := w.(solver_iterations);
     allowSleep := w.(allowSleep); contactmaterials := w.(contactmaterials);
     defaultContactMaterial := w.(defaultContactMaterial);
     world_bodies := {[ b ]} ∪ w.(world_bodies) |}.

Definition World_removeBody (b : ref) (w : World) : World :=
  {| gravity := w.(gravity); broadphase := w.(broadphase);
     solver_iterations := w.(solver_iterations);
     allowSleep := w.(allowSleep); contactmaterials := w.(contactmaterials);
     defaultContactMaterial := w.(defaultContactMaterial);
     world_bodies := w.(world_bodies) ∖ {[ b ]} |}.

(** ** [PhysicsWorld] (src/physics.js) *)

(** The object's fields, together with the store its body references
    point into. *)
Record PhysicsWorld : Type := mkPhysicsWorld {
  store : gmap ref Body;
  world : World;
  defaultMaterial : Material;
  bodies : list ref;
  groundBody : option ref
}.

(** [createGround()]: a static box of half-extents (200, 1, 200) centred at
    (0, -1, 0), handed to the collaborator directly and never to [bodies]. *)
Definition createGround (s : PhysicsWorld) : PhysicsWorld :=
  let groundShape := Box (mkVec3 200 1 200) in
  let g := fresh (dom s.(store)) in
  let ground :=
    {| mass := 0; position := mkVec3 0 (-1) 0; shapes := [groundShape];
       material := Some s.(defaultMaterial);
       linearDamping := None; angularDamping := None; userData := None |} in
  {| store := <[ g := ground ]> s.(store);
     world := World_addBody g s.(world);
     defaultMaterial := s.(defaultMaterial);
     bodies := s.(bodies);
     groundBody := Some g |}.

(** [new PhysicsWorld()], run on a store [σ] of already allocated bodies. *)
Definition new_PhysicsWorld (σ : gmap ref Body) : PhysicsWorld :=
  let defaultMaterial := NamedMaterial "default" in
  let defaultContactMaterial :=
    mkContactMaterial (defaultMaterial, defaultMaterial) 0.5 0.1 100000000 3 in
  createGround
    {| store := σ;
       world := {| gravity := mkVec3 0 (-50) 0;
                   broadphase := NaiveBroadphase;
                   solver_iterations := 10;
                   allowSleep := true;
                   contactmaterials := [defaultContactMaterial];
                   defaultContactMaterial := Some defaultContactMaterial;
                   world_bodies := ∅ |};
       defaultMaterial := defaultMaterial;
       bodies := [];
       groundBody := None |}.

(** [addBody(body)]. *)
Definition addBody (body : ref) (s : PhysicsWorld) : PhysicsWorld :=
  {| store := alter (set_material s.(defaultMaterial)) body s.(store);
     world := World_addBody body s.(world);
     defaultMaterial := s.(defaultMaterial);
     bodies := s.(bodies) ++ [body];
     groundBody := s.(groundBody) |}.

(** [Array.prototype.indexOf]: the first index holding [body], or -1. *)
Fixpoint indexOf (l : list ref) (body : ref) : Z :=
  match l with
  | [] => (-1)%Z
  | r :: l' =>
      if Nat.eqb r body then 0%Z
      else let i := indexOf l' body in
           if (i >? -1)%Z then (i + 1)%Z else (-1)%Z
  end.

(** [l.splice(index, 1)] for an index in range. *)
Definition splice1 (index : Z) (l : list ref) : list ref :=
  delete (Z.to_nat index) l.

(** [removeBody(body)]. *)
Definition removeBody (body : ref) (s : PhysicsWorld) : PhysicsWorld :=
  let index := indexOf s.(bodies) body in
  if (index >? -1)%Z then
    {| store := s.(store);
       world := World_removeBody body s.(world);
       defaultMaterial := s.(defaultMaterial);
       bodies := splice1 index s.(bodies);
       groundBody := s.(groundBody) |}
  else s.

(** [reset()]: [removeBody] on every element of a copy of [bodies]. *)
Definition reset (s : PhysicsWorld) : PhysicsWorld :=
  let bodiesToRemove := s.(bodies) in
  fold_left (fun st body => removeBody body st) bodiesToRemove s.

(** [update(deltaTime)]: one call of the collaborator's solver [step], with
    the fixed time step 1/60 and at most 3 sub-steps.  The solver rewrites
    the bodies of the store (their positions); the container's configuration
    and its set of bodies, and the registry, are not its to change. *)
Definition update
    (step : Q -> Q -> Z -> World -> gmap ref Body -> gmap ref Body)
    (deltaTime : Q) (s : PhysicsWorld) : PhysicsWorld :=
  let fixedTimeStep := 1 / 60 in
  let maxSubSteps := 3%Z in
  {| store := step fixedTimeStep deltaTime maxSubSteps s.(world) s.(store);
     world := s.(world); defaultMaterial := s.(defaultMaterial);
     bodies := s.(bodies); groundBody := s.(groundBody) |}.

(** [body.userData && body.userData.blockType]. *)
Definition has_blockType (body : Body) : bool :=
  match body.(userData) with
  | Some ud =>
      match ud.(blockType) with
      | Some EmptyString => false
      | Some _ => true
      | None => false
      end
  | None => false
  end.

(** The guard every query repeats on a body of the registry:
    [body.userData && body.userData.blockType], then
    [shape = body.shapes[0]] with [shape instanceof CANNON.Box].  When it
    passes, the loop body works on [bPos = body.position] and
    [bHalf = shape.halfExtents]. *)
Definition block_box (σ : gmap ref Body) (r : ref) : option (Vec3 * Vec3) :=
  match σ !! r with
  | Some body =>
      if has_blockType body then
        match body.(shapes) with
        | Box bHalf :: _ => Some (body.(position), bHalf)
        | _ => None
        end
      else None
  | None => None
  end.

(** The loop of [getMaxHeight], [maxHeight] being its accumulator. *)
Fixpoint getMaxHeight_loop (σ : gmap ref Body) (l : list ref) (maxHeight : Q) : Q :=
  match l with
  | [] => maxHeight
  | r :: l' =>
      match block_box σ r with
      | Some (bPos, bHalf) =>
          let topY := bPos.(y) + bHalf.(y) in
          getMaxHeight_loop σ l' (Qmax maxHeight topY)
      | None => getMaxHeight_loop σ l' maxHeight
      end
  end.

(** [getMaxHeight()]. *)
Definition getMaxHeight (s : PhysicsWorld) : Q :=
  Qmax 0 (getMaxHeight_loop s.(store) s.(bodies) 0).

(** The [overlap] test of [checkCollision] on one body. *)
Definition overlap (pos halfExtents bPos bHalf : Vec3) : bool :=
  Js.ltb (Qabs (pos.(x) - bPos.(x))) (halfExtents.(x) + bHalf.(x)) &&
  Js.ltb (Qabs (pos.(y) - bPos.(y))) (halfExtents.(y) + bHalf.(y)) &&
  Js.ltb (Qabs (pos.(z) - bPos.(z))) (halfExtents.(z) + bHalf.(z)).

Fixpoint checkCollision_loop (σ : gmap ref Body) (l : list ref)
    (pos halfExtents : Vec3) : bool :=
  match l with
  | [] => false
  | r :: l' =>
      match block_box σ r with
      | Some (bPos, bHalf) =>
          if overlap pos halfExtents bPos bHalf then true
          else checkCollision_loop σ l' pos halfExtents
      | None => checkCollision_loop σ l' pos halfExtents
      end
  end.

(** [checkCollision(position, halfExtents)]. *)
Definition checkCollision (s : PhysicsWorld) (pos halfExtents : Vec3) : bool :=
  checkCollision_loop s.(store) s.(bodies) pos halfExtents.

(** [overlapX && overlapY && overlapZ] of [isValidPlacement] on one body. *)
Definition overlap_tol (pos halfExtents : Vec3) (tolerance : Q)
    (bPos bHalf : Vec3) : bool :=
  let overlapX :=
    Js.ltb (Qabs (pos.(x) - bPos.(x))) (halfExtents.(x) + bHalf.(x) - tolerance) in
  let overlapY :=
    Js.ltb (Qabs (pos.(y) - bPos.(y))) (halfExtents.(y) + bHalf.(y) - tolerance) in
  let overlapZ :=
    Js.ltb (Qabs (pos.(z) - bPos.(z))) (halfExtents.(z) + bHalf.(z) - tolerance) in
  overlapX && overlapY && overlapZ.

Fixpoint isValidPlacement_loop (σ : gmap ref Body) (l : list ref)
    (pos halfExtents : Vec3) (tolerance : Q) : bool :=
  match l with
  | [] => true
  | r :: l' =>
      match block_box σ r with
      | Some (bPos, bHalf) =>
          if overlap_tol pos halfExtents tolerance bPos bHalf then false
          else isValidPlacement_loop σ l' pos halfExtents tolerance
      | None => isValidPlacement_loop σ l' pos halfExtents tolerance
      end
  end.

(** [isValidPlacement(position, halfExtents, tolerance)]. *)
Definition isValidPlacement (s : PhysicsWorld) (pos halfExtents : Vec3)
    (tolerance : Q) : bool :=
  isValidPlacement_loop s.(store) s.(bodies) pos halfExtents tolerance.

(** The call with [tolerance] left out takes the default 0.5. *)
Definition isValidPlacement_default (s : PhysicsWorld) (pos halfExtents : Vec3) : bool :=
  isValidPlacement s pos halfExtents 0.5.

(** The test [hasSupport] makes on one body, [bottomY] being the candidate's
    bottom face. *)
Definition supports (pos halfExtents : Vec3) (bottomY : Q) (bPos bHalf : Vec3) : bool :=
  let bTopY := bPos.(y) + bHalf.(y) in
  if Js.ltb (Qabs (bTopY - bottomY)) 1.0 then
    let overlapX := Qmax 0
      (Qmin (pos.(x) + halfExtents.(x)) (bPos.(x) + bHalf.(x)) -
       Qmax (pos.(x) - halfExtents.(x)) (bPos.(x) - bHalf.(x))) in
    let overlapZ := Qmax 0
      (Qmin (pos.(z) + halfExtents.(z)) (bPos.(z) + bHalf.(z)) -
       Qmax (pos.(z) - halfExtents.(z)) (bPos.(z) - bHalf.(z))) in
    let minOverlapX := halfExtents.(x) * 0.4 in
    let minOverlapZ := halfExtents.(z) * 0.4 in
    Js.geb overlapX minOverlapX && Js.geb overlapZ minOverlapZ
  else false.

Fixpoint hasSupport_loop (σ : gmap ref Body) (l : list ref)
    (pos halfExtents : Vec3) (bottomY : Q) : bool :=
  match l with
  | [] => false
  | r :: l' =>
      match block_box σ r with
      | Some (bPos, bHalf) =>
          if supports pos halfExtents bottomY bPos bHalf then true
          else hasSupport_loop σ l' pos halfExtents bottomY
      | None => hasSupport_loop σ l' pos halfExtents bottomY
      end
  end.

(** [hasSupport(position, halfExtents)]. *)
Definition hasSupport (s : PhysicsWorld) (pos halfExtents : Vec3) : bool :=
  let bottomY := pos.(y) - halfExtents.(y) in
  if Js.leb bottomY 0.5 then true
  else hasSupport_loop s.(store) s.(bodies) pos halfExtents bottomY.

(** ** The block catalogue (src/blocks.js) *)

Module Config.
Record t : Type := mk {
  name : string;
  size : Vec3;
  color : Z;
  mass : Q;
  friction : Q
}.
End Config.

(** [BLOCK_TYPES[blockType]]; [None] is the [undefined] of a missing key.
    The names an object literal inherits from [Object.prototype]
    ("constructor", "toString", ...) are not missing keys in JavaScript: the
    lookup yields a function there and the callers throw.  They are left out
    of this table, and no property is stated about them. *)
Definition BLOCK_TYPES (blockType : string) : option Config.t :=
  if String.eqb blockType "foundation" then
    Some (Config.mk "Foundation Block" (mkVec3 20 15 20) 0xFFE66D 8 0.7)
  else if String.eqb blockType "office" then
    Some (Config.mk "Office Tower" (mkVec3 10 30 10) 0x4ECDC4 5 0.6)
  else if String.eqb blockType "spire" then
    Some (Config.mk "Spire" (mkVec3 5 50 5) 0xFF6B6B 3 0.5)
  else None.

(** [createBlockBody(blockType, position)]; [None] is its [null]. *)
Definition createBlockBody (blockType : string) (pos : Vec3) : option Body :=
  match BLOCK_TYPES blockType with
  | None => None
  | Some config =>
      let halfExtents :=
        mkVec3 (config.(Config.size).(x) / 2)
               (config.(Config.size).(y) / 2)
               (config.(Config.size).(z) / 2) in
      let shape := Box halfExtents in
      Some {| mass := config.(Config.mass);
              position := mkVec3 pos.(x) pos.(y) pos.(z);
              shapes := [shape];
              material := Some (OptionsMaterial config.(Config.friction) 0.1);
              linearDamping := Some 0.1;
              angularDamping := Some 0.3;
              userData := None |}
  end.

(** The body half of [createBlock(blockType, position)]: the body of
    [createBlockBody] with [userData = { mesh, blockType }], [m] being the
    mesh [createBlockMesh] made for it. *)
Definition createBlock (m : ref) (blockType : string) (pos : Vec3) : option Body :=
  match createBlockBody blockType pos with
  | None => None
  | Some body =>
      Some {| mass := body.(mass); position := body.(position);
              shapes := body.(shapes); material := body.(material);
              linearDamping := body.(linearDamping);
              angularDamping := body.(angularDamping);
              userData := Some (mkUserData (Some m) (Some blockType)) |}
  end.

(** Allocation of a new body object: it gets a reference no object has. *)
Definition alloc (body : Body) (s : PhysicsWorld) : ref * PhysicsWorld :=
  let r := fresh (dom s.(store)) in
  (r, {| store := <[ r := body ]> s.(store); world := s.(world);
         defaultMaterial := s.(defaultMaterial); bodies := s.(bodies);
         groundBody := s.(groundBody) |}).

(** ** Placement resolution (src/controls.js) *)

Module THREE.

(** [intersect.face], whose [normal] may be missing. *)
Record Face : Type := mkFace { normal : option Vec3 }.

(** One entry of [raycaster.intersectObjects(...)]. *)
Record Intersection : Type := mkIntersection {
  distance : Q;
  point : Vec3;
  face : option Face;
  object : ref
}.

End THREE.

(** The fields of [GameControls] that placement reads. *)
Record GameControls : Type := mkGameControls {
  blockMeshes : list ref;
  gridSize : Q;
  snapToGrid : bool
}.

(** The constructor's values for these fields. *)
Definition new_GameControls : GameControls :=
  {| blockMeshes := []; gridSize := 5; snapToGrid := true |}.

(** [setBlockMeshes(meshes)]. *)
Definition setBlockMeshes (meshes : list ref) (c : GameControls) : GameControls :=
  {| blockMeshes := meshes; gridSize := c.(gridSize); snapToGrid := c.(snapToGrid) |}.

(** [snapPositionToGrid(position)]. *)
Definition snapPositionToGrid (c : GameControls) (pos : Vec3) : Vec3 :=
  if negb c.(snapToGrid) then pos
  else mkVec3 (Js.round (pos.(x) / c.(gridSize)) * c.(gridSize))
              pos.(y)
              (Js.round (pos.(z) / c.(gridSize)) * c.(gridSize)).

(** The placement candidate [{ position, surfaceY, onBlock, targetBlock }]. *)
Module Placement.
Record t : Type := mk {
  position : Vec3;
  surfaceY : Q;
  onBlock : bool;
  targetBlock : option ref
}.
End Placement.

(** [v.y = a]. *)
Definition set_y (a : Q) (v : Vec3) : Vec3 := mkVec3 v.(x) a v.(z).

Section Raycasting.

(** The ray and the three.js operations on it are the collaborator's:
    [raycaster.intersectObjects(meshes, false)],
    [normal.clone().transformDirection(object.matrixWorld)] and
    [ray.intersectPlane(groundPlane, target)] for the plane Y = 0, whose
    [null] is [None]. *)
Variable Ray : Type.
Variable intersectObjects : Ray -> list ref -> list THREE.Intersection.
Variable transformDirection : Vec3 -> ref -> Vec3.
Variable intersectPlane : Ray -> option Vec3.

(** The test on one intersection: a face with a normal whose world-space
    direction has [y > 0.5]. *)
Definition top_face (i : THREE.Intersection) : bool :=
  match i.(THREE.face) with
  | Some f =>
      match f.(THREE.normal) with
      | Some n =>
          let worldNormal := transformDirection n i.(THREE.object) in
          Js.gtb worldNormal.(y) 0.5
      | None => false
      end
  | None => false
  end.

(** The loop over [intersects], returning at the first top face. *)
Fixpoint block_placement (c : GameControls) (intersects : list THREE.Intersection)
    : option Placement.t :=
  match intersects with
  | [] => None
  | intersect :: rest =>
      if top_face intersect then
        let point := intersect.(THREE.point) in
        let snapped := snapPositionToGrid c point in
        Some {| Placement.position := set_y point.(y) snapped;
                Placement.surfaceY := point.(y);
                Placement.onBlock := true;
                Placement.targetBlock := Some intersect.(THREE.object) |}
      else block_placement c rest
  end.

(** The intersections the loop runs over: none when there is no block
    mesh, the raycaster not being asked then. *)
Definition block_hits (c : GameControls) (ray : Ray) : list THREE.Intersection :=
  if (0 <? length c.(blockMeshes))%nat then intersectObjects ray c.(blockMeshes)
  else [].

(** The fall-back on the ground plane. *)
Definition ground_placement (c : GameControls) (ray : Ray) : option Placement.t :=
  match intersectPlane ray with
  | Some intersection =>
      let clamped :=
        mkVec3 (Qmax (-80) (Qmin 80 intersection.(x)))
               intersection.(y)
               (Qmax (-80) (Qmin 80 intersection.(z))) in
      let snapped := snapPositionToGrid c clamped in
      Some {| Placement.position := set_y 0 snapped;
              Placement.surfaceY := 0;
              Placement.onBlock := false;
              Placement.targetBlock := None |}
  | None => None
  end.

(** [getPlacementPosition()], [ray] being the ray [setFromCamera] has put
    in the raycaster. *)
Definition getPlacementPosition (c : GameControls) (ray : Ray) : option Placement.t :=
  let found :=
    if (0 <? length c.(blockMeshes))%nat then
      block_placement c (intersectObjects ray c.(blockMeshes))
    else None in
  match found with
  | Some info => Some info
  | None => ground_placement c ray
  end.

End Raycasting.

Arguments block_hits {Ray} intersectObjects c ray.
Arguments ground_placement {Ray} intersectPlane c ray.
Arguments getPlacementPosition {Ray} intersectObjects transformDirection
  intersectPlane c ray.

(** The sequence of [confirmPlacement] in src/main.js: the body object is
    created, then handed to [addBody]. *)
Definition placeBody (body : Body) (s : PhysicsWorld) : PhysicsWorld :=
  let '(r, s') := alloc body s in addBody r s'.

(** * Vocabulary of the properties *)

(** A dynamic body, as every query sees it: an element of the registry that
    carries a block type and whose shape is a box, with centre [bPos] and
    half-extents [bHalf]. *)
Definition dynamic_box (s : PhysicsWorld) (bPos bHalf : Vec3) : Prop :=
  exists r, r ∈ s.(bodies) /\ block_box s.(store) r = Some (bPos, bHalf).

(** Two boxes overlap on all three axes, edge contact not counting; a
    tolerance [t] is taken off each axis's sum of half-extents. *)
Definition boxes_overlap (t : Q) (pos halfExtents bPos bHalf : Vec3) : Prop :=
  Qabs (pos.(x) - bPos.(x)) < halfExtents.(x) + bHalf.(x) - t /\
  Qabs (pos.(y) - bPos.(y)) < halfExtents.(y) + bHalf.(y) - t /\
  Qabs (pos.(z) - bPos.(z)) < halfExtents.(z) + bHalf.(z) - t.

(** The same without tolerance, as [checkCollision] compares. *)
Definition strict_overlap (pos halfExtents bPos bHalf : Vec3) : Prop :=
  Qabs (pos.(x) - bPos.(x)) < halfExtents.(x) + bHalf.(x) /\
  Qabs (pos.(y) - bPos.(y)) < halfExtents.(y) + bHalf.(y) /\
  Qabs (pos.(z) - bPos.(z)) < halfExtents.(z) + bHalf.(z).

(** A block body with a box of half-extents [halfExtents] centred at [pos],
    linked to its block type the way [createBlock] links it. *)
Definition box_block (blockType : string) (pos halfExtents : Vec3) : Body :=
  {| mass := 1; position := pos; shapes := [Box halfExtents];
     material := Some (OptionsMaterial 0.6 0.1);
     linearDamping := Some 0.1; angularDamping := Some 0.3;
     userData := Some (mkUserData None (Some blockType)) |}.

(** The length of the intersection of the intervals [c - ch, c + ch] and
    [b - bh, b + bh], and 0 when they are disjoint. *)
Definition projection_overlap (c ch b bh : Q) : Q :=
  Qmax 0 (Qmin (c + ch) (b + bh) - Qmax (c - ch) (b - bh)).

(** A box supports the candidate: its top face is within 1.0 of the
    candidate's bottom face, and on each of X and Z the two projections share
    at least 0.4 times the candidate's half-extent. *)
Definition supporting_box (pos halfExtents bPos bHalf : Vec3) : Prop :=
  Qabs (bPos.(y) + bHalf.(y) - (pos.(y) - halfExtents.(y))) < 1 /\
  halfExtents.(x) * 0.4 <=
    projection_overlap pos.(x) halfExtents.(x) bPos.(x) bHalf.(x) /\
  halfExtents.(z) * 0.4 <=
    projection_overlap pos.(z) halfExtents.(z) bPos.(z) bHalf.(z).

(** The invariant of the data model: the ground body is not an element of
    the registry. *)
Definition ground_not_registered (s : PhysicsWorld) : Prop :=
  forall g, s.(groundBody) = Some g -> g ∉ s.(bodies).

(** The ground body is among the bodies the collaborator simulates. *)
Definition ground_simulated (s : PhysicsWorld) : Prop :=
  exists g, s.(groundBody) = Some g /\ g ∈ s.(world).(world_bodies).

(** The container once the bodies [bs] have left it. *)
Definition World_without (bs : gset ref) (w : World) : World :=
  {| gravity := w.(gravity); broadphase := w.(broadphase);
     solver_iterations := w.(solver_iterations);
     allowSleep := w.(allowSleep); contactmaterials := w.(contactmaterials);
     defaultContactMaterial := w.(defaultContactMaterial);
     world_bodies := w.(world_bodies) ∖ bs |}.

(** Two body records that differ at most in their position. *)
Definition same_but_position (b1 b2 : Body) : Prop :=
  b1.(mass) = b2.(mass) /\ b1.(shapes) = b2.(shapes) /\
  b1.(material) = b2.(material) /\
  b1.(linearDamping) = b2.(linearDamping) /\
  b1.(angularDamping) = b2.(angularDamping) /\
  b1.(userData) = b2.(userData).

(** What is assumed of the collaborator's solver: it moves the bodies of the
    store, and neither makes nor drops nor otherwise rewrites one. *)
Definition moves_only
    (step : Q -> Q -> Z -> World -> gmap ref Body -> gmap ref Body) : Prop :=
  forall fixedTimeStep deltaTime maxSubSteps w σ r,
    option_Forall2 same_but_position
      (σ !! r) (step fixedTimeStep deltaTime maxSubSteps w σ !! r).

(** The worlds the operations of [PhysicsWorld] build, bodies being created
    in the store before they are handed to [addBody]. *)
Inductive built : PhysicsWorld -> Prop :=
| built_new σ : built (new_PhysicsWorld σ)
| built_alloc body s : built s -> built (alloc body s).2
| built_addBody b s : built s -> is_Some (s.(store) !! b) -> built (addBody b s)
| built_removeBody b s : built s -> built (removeBody b s)
| built_reset s : built s -> built (reset s)
| built_update step deltaTime s :
    built s -> moves_only step -> built (update step deltaTime s).

(** Every registered body exists and carries the world's default material. *)
Definition registered_default (s : PhysicsWorld) : Prop :=
  forall b, b ∈ s.(bodies) ->
    exists body,
      s.(store) !! b = Some body /\ body.(material) = Some s.(defaultMaterial).

(** The default material is the one named "default", and the contact
    material of the world pairs it with itself with friction 0.5 and
    restitution 0.1. *)
Definition default_contact (s : PhysicsWorld) : Prop :=
  s.(defaultMaterial) = NamedMaterial "default" /\
  exists cm,
    s.(world).(defaultContactMaterial) = Some cm /\
    cm.(materials) = (s.(defaultMaterial), s.(defaultMaterial)) /\
    cm.(friction) == 0.5 /\ cm.(restitution) == 0.1.

(** [a] is a whole multiple of [g]. *)
Definition multiple_of (g a : Q) : Prop := exists k : Z, a == inject_Z k * g.

(** A coordinate brought into the buildable region [-80, 80]. *)
Definition clamp80 (a : Q) : Q := Qmax (-80) (Qmin 80 a).

(** [a] is the multiple of 5 nearest to [b]: a multiple of 5 at most 2.5
    away, which [Math.round] takes upwards when two are as near. *)
Definition snapped5 (a b : Q) : Prop :=
  a == Js.round (b / 5) * 5 /\ multiple_of 5 a /\ Qabs (a - b) <= 2.5.


(** A scene to run placement on: a ray that grazes the side of mesh 7,
    then strikes its top face at height 30, then the top face of mesh 8
    behind it, and would meet the ground at (83, 0, -12.6). *)
Definition demo_hits : list THREE.Intersection :=
  [ THREE.mkIntersection 40 (mkVec3 10 22 (-3))
      (Some (THREE.mkFace (Some (mkVec3 1 0 0)))) 7%nat;
    THREE.mkIntersection 42.5 (mkVec3 12.4 30 (-3.1))
      (Some (THREE.mkFace (Some (mkVec3 0 1 0)))) 7%nat;
    THREE.mkIntersection 61 (mkVec3 31 15 (-6))
      (Some (THREE.mkFace (Some (mkVec3 0 1 0)))) 8%nat ].

Definition demo_intersectObjects (ray : unit) (meshes : list ref)
    : list THREE.Intersection :=
  match meshes with [] => [] | _ => demo_hits end.

(** The meshes of the scene are not rotated: directions are unchanged. *)
Definition demo_transformDirection (n : Vec3) (object : ref) : Vec3 := n.

Definition demo_intersectPlane (ray : unit) : option Vec3 :=
  Some (mkVec3 83 0 (-12.6)).

(** A solver to run [update] with: every body sinks by [deltaTime]. *)
Definition demo_step (fixedTimeStep deltaTime : Q) (maxSubSteps : Z)
    (w : World) (σ : gmap ref Body) : gmap ref Body :=
  (fun b =>
     {| mass := b.(mass);
        position := mkVec3 b.(position).(x) (b.(position).(y) - deltaTime)
                           b.(position).(z);
        shapes := b.(shapes); material := b.(material);
        linearDamping := b.(linearDamping);
        angularDamping := b.(angularDamping);
        userData := b.(userData) |}) <$> σ.

(** A world to run the queries on: a new world with one foundation block
    of the catalogue (20 x 15 x 20) resting on the ground at the origin. *)
Definition demo_world : PhysicsWorld :=
  match createBlock 100%nat "foundation" (mkVec3 0 7.5 0) with
  | Some body => placeBody body (new_PhysicsWorld ∅)
  | None => new_PhysicsWorld ∅
  end.

(** Some box of the registry [l] passes [test]: what a query loop that
    returns at the first hit computes. *)
Definition any_block (σ : gmap ref Body) (l : list ref)
    (test : Vec3 -> Vec3 -> bool) : bool :=
  existsb (fun r => match block_box σ r with
                    | Some (bPos, bHalf) => test bPos bHalf
                    | None => false
                    end) l.

(** * More of the program *)

(** ** The other queries of [PhysicsWorld] *)

(** The loop of [getTopYAt], [maxTopY] being its accumulator and [qx], [qz]
    the arguments [x], [z]. *)
Fixpoint getTopYAt_loop (σ : gmap ref Body) (l : list ref)
    (qx qz : Q) (blockHalfExtents : Vec3) (maxTopY : Q) : Q :=
  match l with
  | [] => maxTopY
  | r :: l' =>
      match block_box σ r with
      | Some (bPos, bHalf) =>
          let overlapX :=
            Js.ltb (Qabs (qx - bPos.(x))) (blockHalfExtents.(x) + bHalf.(x)) in
          let overlapZ :=
            Js.ltb (Qabs (qz - bPos.(z))) (blockHalfExtents.(z) + bHalf.(z)) in
          if overlapX && overlapZ then
            let topY := bPos.(y) + bHalf.(y) in
            getTopYAt_loop σ l' qx qz blockHalfExtents (Qmax maxTopY topY)
          else getTopYAt_loop σ l' qx qz blockHalfExtents maxTopY
      | None => getTopYAt_loop σ l' qx qz blockHalfExtents maxTopY
      end
  end.

(** [getTopYAt(x, z, blockHalfExtents)]. *)
Definition getTopYAt (s : PhysicsWorld) (qx qz : Q) (blockHalfExtents : Vec3) : Q :=
  getTopYAt_loop s.(store) s.(bodies) qx qz blockHalfExtents 0.

(** [getBodies()]. *)
Definition getBodies (s : PhysicsWorld) : list ref := s.(bodies).

(** ** The other getters of the catalogue (src/blocks.js) *)

(** [getBlockHeightOffset(blockType)]. *)
Definition getBlockHeightOffset (blockType : string) : Q :=
  match BLOCK_TYPES blockType with
  | Some config => config.(Config.size).(y) / 2
  | None => 0
  end.

(** [getBlockSize(blockType)]: a copy of the size, or [null]. *)
Definition getBlockSize (blockType : string) : option Vec3 :=
  match BLOCK_TYPES blockType with
  | Some config =>
      Some (mkVec3 config.(Config.size).(x) config.(Config.size).(y)
                   config.(Config.size).(z))
  | None => None
  end.

(** [getBlockHalfExtents(blockType)]. *)
Definition getBlockHalfExtents (blockType : string) : option Vec3 :=
  match BLOCK_TYPES blockType with
  | None => None
  | Some config =>
      Some (mkVec3 (config.(Config.size).(x) / 2)
                   (config.(Config.size).(y) / 2)
                   (config.(Config.size).(z) / 2))
  end.

(** ** Zoom (src/controls.js) *)

(** The assignment of [onWheel(event)] to [spherical.radius], [deltaY] being
    [event.deltaY]. *)
Definition onWheel (deltaY : Q) (radius : Q) : Q :=
  Qmax 50 (Qmin 300 (radius + deltaY * 0.5)).

(** The radius the constructor starts from: [new THREE.Spherical(150, ...)]. *)
Definition initial_radius : Q := 150.

(** [getGroundPosition()] on the outcome of [getPlacementPosition()]. *)
Definition getGroundPosition (info : option Placement.t) : option Vec3 :=
  match info with
  | Some i => Some i.(Placement.position)
  | None => None
  end.

(** ** Placing blocks (src/main.js) *)

(** A block type that is selected: [selectedBlockType] is neither [null]
    nor the empty string. *)
Definition selected (selectedBlockType : option string) : bool :=
  match selectedBlockType with
  | Some EmptyString => false
  | Some _ => true
  | None => false
  end.

(** [checkPlacementValidity(position, halfExtents)]. *)
Definition checkPlacementValidity (s : PhysicsWorld) (pos halfExtents : Vec3) : bool :=
  let noCollision :=
    isValidPlacement_default s (mkVec3 pos.(x) pos.(y) pos.(z)) halfExtents in
  if negb noCollision then false
  else
    let hasSupport_ := hasSupport s (mkVec3 pos.(x) pos.(y) pos.(z)) halfExtents in
    hasSupport_.

(** The box centre [confirmPlacement] and [updateGhostBlock] compute from a
    candidate: its position with [y = surfaceY + halfExtents.y]. *)
Definition placement_centre (info : Placement.t) (halfExtents : Vec3) : Vec3 :=
  set_y (info.(Placement.surfaceY) + halfExtents.(y)) info.(Placement.position).

(** The [spawnPosition] of the drop-from-above [placeBlock(position)]. *)
Definition spawnPosition (s : PhysicsWorld) (blockType : string) (pos : Vec3) : Vec3 :=
  let heightOffset := getBlockHeightOffset blockType in
  let dropHeight := getMaxHeight s + 80 in
  mkVec3 pos.(x) (dropHeight + heightOffset) pos.(z).

(** [placeBlock(position)] on the physics world, [m] being the mesh
    [createBlock] makes; the spin it then gives the body is on a field the
    queries never read. *)
Definition placeBlock (m : ref) (selectedBlockType : option string) (pos : Vec3)
    (s : PhysicsWorld) : PhysicsWorld :=
  match selectedBlockType with
  | Some blockType =>
      if negb (selected selectedBlockType) then s
      else
        match createBlock m blockType (spawnPosition s blockType pos) with
        | Some body => placeBody body s
        | None => s
        end
  | None => s
  end.

(** ** Vocabulary of the further properties *)

(** The footprints of two boxes overlap on X and on Z, edge contact not
    counting. *)
Definition footprint_overlap (qx qz : Q) (halfExtents bPos bHalf : Vec3) : Prop :=
  Qabs (qx - bPos.(x)) < halfExtents.(x) + bHalf.(x) /\
  Qabs (qz - bPos.(z)) < halfExtents.(z) + bHalf.(z).

(** The centre [pos] lies over the footprint of the box. *)
Definition centred_over (pos bPos bHalf : Vec3) : Prop :=
  Qabs (pos.(x) - bPos.(x)) <= bHalf.(x) /\
  Qabs (pos.(z) - bPos.(z)) <= bHalf.(z).

(** Every dynamic body of [s1] is one of [s2], with the same box. *)
Definition boxes_included (s1 s2 : PhysicsWorld) : Prop :=
  forall bPos bHalf, dynamic_box s1 bPos bHalf -> dynamic_box s2 bPos bHalf.

(** The box the queries read off a body record, when its guard passes. *)
Definition body_box (body : Body) : option (Vec3 * Vec3) :=
  if has_blockType body then
    match body.(shapes) with
    | Box bHalf :: _ => Some (body.(position), bHalf)
    | _ => None
    end
  else None.

(** Every registered reference points to a body of the store, as every
    reference to a JavaScript object does. *)
Definition registered_allocated (s : PhysicsWorld) : Prop :=
  forall r, r ∈ s.(bodies) -> is_Some (s.(store) !! r).

(** The property names every object literal inherits from
    [Object.prototype].  For them [BLOCK_TYPES[blockType]] is not
    [undefined], so they are no missing keys. *)
Definition Object_prototype_keys : list string :=
  [ "constructor"; "hasOwnProperty"; "isPrototypeOf"; "propertyIsEnumerable";
    "toLocaleString"; "toString"; "valueOf"; "__proto__";
    "__defineGetter__"; "__defineSetter__"; "__lookupGetter__";
    "__lookupSetter__" ]%string.

Definition inherited_key (blockType : string) : Prop :=
  In blockType Object_prototype_keys.

(** The keys of the catalogue. *)
Definition catalogue_key (blockType : string) : Prop :=
  blockType = "foundation"%string \/ blockType = "office"%string \/
  blockType = "spire"%string.

(** ** The game (src/main.js) *)

(** One entry of [blocks]: the [{ mesh, body }] that [createBlock] returns. *)
Record Block : Type := mkBlock { block_mesh : ref; block_body : ref }.

(** The fields of [Game] that placement reads and writes.  The scene graph,
    the ghost mesh (kept here as the block type its [userData] carries) and
    the DOM are the renderer's; [meshes_made] is the set of block meshes
    [createBlockMesh] has created, a new mesh being none of them. *)
Record Game : Type := mkGame {
  physics : PhysicsWorld;
  controls : GameControls;
  selectedBlockType : option string;
  ghostBlock : option string;
  blocks : list Block;
  currentPlacementValid : bool;
  lastPlacementInfo : option Placement.t;
  meshes_made : gset ref
}.

(** The constructor and [init()]. *)
Definition new_Game : Game :=
  {| physics := new_PhysicsWorld ∅; controls := new_GameControls;
     selectedBlockType := None; ghostBlock := None; blocks := [];
     currentPlacementValid := false; lastPlacementInfo := None;
     meshes_made := ∅ |}.

(** [cancelPlacement()]. *)
Definition cancelPlacement (g : Game) : Game :=
  {| physics := g.(physics); controls := g.(controls);
     selectedBlockType := None; ghostBlock := None; blocks := g.(blocks);
     currentPlacementValid := false; lastPlacementInfo := None;
     meshes_made := g.(meshes_made) |}.

(** [createGhostBlock(type)]: [null] for a type the catalogue lacks. *)
Definition createGhostBlock (type : string) : option string :=
  match BLOCK_TYPES type with
  | Some _ => Some type
  | None => None
  end.

(** [selectBlockType(type)]: a second selection of the selected type
    deselects it. *)
Definition selectBlockType (type : string) (g : Game) : Game :=
  let same :=
    match g.(selectedBlockType) with
    | Some t => String.eqb t type
    | None => false
    end in
  if same then cancelPlacement g
  else
    {| physics := g.(physics); controls := g.(controls);
       selectedBlockType := Some type; ghostBlock := createGhostBlock type;
       blocks := g.(blocks);
       currentPlacementValid := g.(currentPlacementValid);
       lastPlacementInfo := g.(lastPlacementInfo);
       meshes_made := g.(meshes_made) |}.

(** [updateBlockMeshesForRaycast()]. *)
Definition updateBlockMeshesForRaycast (g : Game) : Game :=
  let meshes := map block_mesh g.(blocks) in
  {| physics := g.(physics); controls := setBlockMeshes meshes g.(controls);
     selectedBlockType := g.(selectedBlockType); ghostBlock := g.(ghostBlock);
     blocks := g.(blocks);
     currentPlacementValid := g.(currentPlacementValid);
     lastPlacementInfo := g.(lastPlacementInfo);
     meshes_made := g.(meshes_made) |}.

(** [confirmPlacement(placementInfo)]. *)
Definition confirmPlacement (placementInfo : Placement.t) (g : Game) : Game :=
  if negb (selected g.(selectedBlockType)) || negb g.(currentPlacementValid)
  then g
  else
    match g.(selectedBlockType) with
    | None => g
    | Some blockType =>
        match getBlockHalfExtents blockType with
        | None => g
        | Some halfExtents =>
            let pos :=
              set_y (placementInfo.(Placement.surfaceY) + halfExtents.(y))
                    placementInfo.(Placement.position) in
            let m := fresh g.(meshes_made) in
            match createBlock m blockType (mkVec3 pos.(x) pos.(y) pos.(z)) with
            | None => g
            | Some body =>
                let '(r, p1) := alloc body g.(physics) in
                cancelPlacement
                  (updateBlockMeshesForRaycast
                     {| physics := addBody r p1; controls := g.(controls);
                        selectedBlockType := g.(selectedBlockType);
                        ghostBlock := g.(ghostBlock);
                        blocks := g.(blocks) ++ [mkBlock m r];
                        currentPlacementValid := g.(currentPlacementValid);
                        lastPlacementInfo := g.(lastPlacementInfo);
                        meshes_made := {[ m ]} ∪ g.(meshes_made) |})
            end
        end
    end.

(** The callback [setupControls()] installs as [onPlaceBlock]. *)
Definition onPlaceBlock (placementInfo : Placement.t) (g : Game) : Game :=
  if selected g.(selectedBlockType) && g.(currentPlacementValid)
  then confirmPlacement placementInfo g
  else g.

(** [reset()] of the game. *)
Definition Game_reset (g : Game) : Game :=
  updateBlockMeshesForRaycast
    (cancelPlacement
       {| physics := reset g.(physics); controls := g.(controls);
          selectedBlockType := g.(selectedBlockType);
          ghostBlock := g.(ghostBlock); blocks := [];
          currentPlacementValid := g.(currentPlacementValid);
          lastPlacementInfo := g.(lastPlacementInfo);
          meshes_made := g.(meshes_made) |}).

(** The number [updateHeightMeter()] writes to the height display. *)
Definition heightMeter (g : Game) : Q := Js.round (getMaxHeight g.(physics)).

Section Game_loop.

Variable Ray : Type.
Variable intersectObjects : Ray -> list ref -> list THREE.Intersection.
Variable transformDirection : Vec3 -> ref -> Vec3.
Variable intersectPlane : Ray -> option Vec3.
Variable step : Q -> Q -> Z -> World -> gmap ref Body -> gmap ref Body.

(** [getGhostPlacementPosition()]: the statements of
    [getPlacementPosition()], [ray] being the ray [setFromCamera] makes of
    [currentMousePosition]. *)
Definition getGhostPlacementPosition (c : GameControls) (ray : Ray)
    : option Placement.t :=
  let found :=
    if (0 <? length c.(blockMeshes))%nat then
      block_placement transformDirection c (intersectObjects ray c.(blockMeshes))
    else None in
  match found with
  | Some info => Some info
  | None => ground_placement intersectPlane c ray
  end.

(** [updateGhostBlock()], [ray] being the ray of the current pointer. *)
Definition updateGhostBlock (ray : Ray) (g : Game) : Game :=
  match g.(ghostBlock), g.(selectedBlockType) with
  | Some _, Some blockType =>
      if negb (selected g.(selectedBlockType)) then g
      else
        match getGhostPlacementPosition g.(controls) ray with
        | Some placementInfo =>
            match getBlockHalfExtents blockType with
            | None => g
            | Some halfExtents =>
                let ghostY := placementInfo.(Placement.surfaceY) + halfExtents.(y) in
                let pos := set_y ghostY placementInfo.(Placement.position) in
                let isValid := checkPlacementValidity g.(physics) pos halfExtents in
                {| physics := g.(physics); controls := g.(controls);
                   selectedBlockType := g.(selectedBlockType);
                   ghostBlock := g.(ghostBlock); blocks := g.(blocks);
                   currentPlacementValid := isValid;
                   lastPlacementInfo := Some placementInfo;
                   meshes_made := g.(meshes_made) |}
            end
        | None =>
            {| physics := g.(physics); controls := g.(controls);
               selectedBlockType := g.(selectedBlockType);
               ghostBlock := g.(ghostBlock); blocks := g.(blocks);
               currentPlacementValid := false;
               lastPlacementInfo := g.(lastPlacementInfo);
               meshes_made := g.(meshes_made) |}
        end
  | _, _ => g
  end.

(** The placing branch of [onMouseUp] and [onTouchEnd], taken when the
    pointer has hardly moved: the candidate under [ray], when there is one,
    goes to [onPlaceBlock]. *)
Definition click (ray : Ray) (g : Game) : Game :=
  match getPlacementPosition intersectObjects transformDirection intersectPlane
          g.(controls) ray with
  | Some placementInfo => onPlaceBlock placementInfo g
  | None => g
  end.

(** One frame of [animate()]: the physics step, then the ghost update. *)
Definition animate (deltaTime : Q) (ray : Ray) (g : Game) : Game :=
  updateGhostBlock ray
    {| physics := update step deltaTime g.(physics); controls := g.(controls);
       selectedBlockType := g.(selectedBlockType); ghostBlock := g.(ghostBlock);
       blocks := g.(blocks);
       currentPlacementValid := g.(currentPlacementValid);
       lastPlacementInfo := g.(lastPlacementInfo);
       meshes_made := g.(meshes_made) |}.

(** The states a game goes through. *)
Inductive played : Game -> Prop :=
| played_new : played new_Game
| played_select type g : played g -> played (selectBlockType type g)
| played_cancel g : played g -> played (cancelPlacement g)
| played_click ray g : played g -> played (click ray g)
| played_reset g : played g -> played (Game_reset g)
| played_animate deltaTime ray g : played g -> played (animate deltaTime ray g).

End Game_loop.

Arguments getGhostPlacementPosition {Ray} intersectObjects transformDirection
  intersectPlane c ray.
Arguments updateGhostBlock {Ray} intersectObjects transformDirection
  intersectPlane ray g.
Arguments click {Ray} intersectObjects transformDirection intersectPlane ray g.
Arguments animate {Ray} intersectObjects transformDirection intersectPlane
  step deltaTime ray g.
Arguments played {Ray} intersectObjects transformDirection intersectPlane step g.

(** What holds of the registry and the lists in every state of a game:
    [blocks], the registry and the raycast meshes list the same blocks in
    the same order, without repetition; the ground body is simulated and not
    registered; and every registered body is an allocated block of the
    catalogue, with the catalogue's half-extents. *)
Record game_inv (g : Game) : Prop := mkGameInv {
  inv_bodies : map block_body g.(blocks) = g.(physics).(bodies);
  inv_meshes : g.(controls).(blockMeshes) = map block_mesh g.(blocks);
  inv_grid : g.(controls).(gridSize) = 5 /\ g.(controls).(snapToGrid) = true;
  inv_nodup_bodies : NoDup g.(physics).(bodies);
  inv_nodup_meshes : NoDup (map block_mesh g.(blocks));
  inv_meshes_made : forall b, b ∈ g.(blocks) -> b.(block_mesh) ∈ g.(meshes_made);
  inv_ground : exists gr,
    g.(physics).(groundBody) = Some gr /\
    (gr ∉ g.(physics).(bodies)) /\
    (gr ∈ g.(physics).(world).(world_bodies)) /\
    is_Some (g.(physics).(store) !! gr);
  inv_blocks : forall r, r ∈ g.(physics).(bodies) ->
    exists body blockType h,
      g.(physics).(store) !! r = Some body /\
      has_blockType body = true /\
      getBlockHalfExtents blockType = Some h /\
      body.(shapes) = [Box h] /\
      body.(material) = Some g.(physics).(defaultMaterial) /\
      r ∈ g.(physics).(world).(world_bodies)
}.

(** A pointer whose ray meets only the ground, at the point it names. *)
Definition ground_intersectObjects (ray : Vec3) (meshes : list ref)
    : list THREE.Intersection := [].

Definition ground_intersectPlane (ray : Vec3) : option Vec3 := Some ray.

(** A game to run: a foundation block is selected, previewed and placed at
    the origin; a second one is selected and previewed 40 away, where it is
    valid, and the click then comes with the pointer back over the origin. *)
Definition demo_game_first : Game :=
  click ground_intersectObjects demo_transformDirection ground_intersectPlane
    (mkVec3 0 0 0)
    (animate ground_intersectObjects demo_transformDirection
       ground_intersectPlane demo_step 0 (mkVec3 0 0 0)
       (selectBlockType "foundation" new_Game)).

Definition demo_game_previewed : Game :=
  animate ground_intersectObjects demo_transformDirection
    ground_intersectPlane demo_step 0 (mkVec3 40 0 0)
    (selectBlockType "foundation" demo_game_first).

Definition demo_game : Game :=
  click ground_intersectObjects demo_transformDirection ground_intersectPlane
    (mkVec3 0 0 0) demo_game_previewed.

(** * Properties *)

(** ** Comparisons and rounding *)

Lemma ltb_lt (a b : Q) : Js.ltb a b = true <-> a < b.
Proof.
  unfold Js.ltb. rewrite negb_true_iff, <- not_true_iff_false, Qle_bool_iff.
  split; [apply Qnot_le_lt | apply Qlt_not_le].
Qed.

Lemma leb_le (a b : Q) : Js.leb a b = true <-> a <= b.
Proof. apply Qle_bool_iff. Qed.

Lemma gtb_gt (a b : Q) : Js.gtb a b = true <-> b < a.
Proof. apply ltb_lt. Qed.

Lemma geb_ge (a b : Q) : Js.geb a b = true <-> b <= a.
Proof. apply Qle_bool_iff. Qed.

(** ** The model on concrete inputs *)

Example round_ties_up :
  Js.round 2.5 == 3 /\ Js.round (-2.5) == -2 /\ Js.round 2.4 == 2 /\
  Js.round (-2.6) == -3.
Proof. repeat split. Qed.

Example indexOf_first_or_minus_one :
  indexOf [4; 7; 4; 7]%nat 7%nat = 1%Z /\ indexOf [4; 7]%nat 9%nat = (-1)%Z.
Proof. split; reflexivity. Qed.

Example demo_world_registry :
  demo_world.(groundBody) = Some 0%nat /\ demo_world.(bodies) = [1%nat] /\
  block_box demo_world.(store) 1%nat = Some (mkVec3 0 7.5 0, mkVec3 (20 / 2) (15 / 2) (20 / 2)) /\
  block_box demo_world.(store) 0%nat = None.
Proof. repeat split. Qed.

Example demo_world_queries :
  getMaxHeight demo_world == 15 /\
  checkCollision demo_world (mkVec3 0 30 0) (mkVec3 5 15 5) = false /\
  checkCollision demo_world (mkVec3 0 29 0) (mkVec3 5 15 5) = true /\
  isValidPlacement_default demo_world (mkVec3 0 29.6 0) (mkVec3 5 15 5) = true /\
  hasSupport demo_world (mkVec3 0 30 0) (mkVec3 5 15 5) = true /\
  hasSupport demo_world (mkVec3 9 30 0) (mkVec3 5 15 5) = true /\
  hasSupport demo_world (mkVec3 14 30 0) (mkVec3 5 15 5) = false /\
  hasSupport demo_world (mkVec3 0 40 0) (mkVec3 5 15 5) = false /\
  hasSupport demo_world (mkVec3 50 15 0) (mkVec3 5 15 5) = true.
Proof. repeat split. Qed.

Example reset_demo_world :
  (reset demo_world).(bodies) = [] /\
  (reset demo_world).(groundBody) = Some 0%nat /\
  removeBody 1%nat (reset demo_world) = reset demo_world.
Proof. repeat split. Qed.

(** ** The query loops *)

Lemma any_block_true σ l test :
  any_block σ l test = true <->
  exists r bPos bHalf,
    r ∈ l /\ block_box σ r = Some (bPos, bHalf) /\ test bPos bHalf = true.
Proof.
  unfold any_block. rewrite existsb_exists. split.
  - intros (r & Hin & Hr). apply list_elem_of_In in Hin.
    destruct (block_box σ r) as [[bPos bHalf]|] eqn:Hb; [|discriminate].
    exists r, bPos, bHalf. auto.
  - intros (r & bPos & bHalf & Hin & Hb & Ht). exists r.
    split; [by apply list_elem_of_In | by rewrite Hb].
Qed.

Lemma checkCollision_loop_any σ l pos halfExtents :
  checkCollision_loop σ l pos halfExtents = any_block σ l (overlap pos halfExtents).
Proof.
  induction l as [|r l IH]; simpl; [reflexivity|].
  destruct (block_box σ r) as [[bPos bHalf]|]; [|exact IH].
  destruct (overlap pos halfExtents bPos bHalf); [reflexivity | exact IH].
Qed.

Lemma isValidPlacement_loop_any σ l pos halfExtents t :
  isValidPlacement_loop σ l pos halfExtents t =
  negb (any_block σ l (overlap_tol pos halfExtents t)).
Proof.
  induction l as [|r l IH]; simpl; [reflexivity|].
  destruct (block_box σ r) as [[bPos bHalf]|]; [|exact IH].
  destruct (overlap_tol pos halfExtents t bPos bHalf); [reflexivity | exact IH].
Qed.

Lemma hasSupport_loop_any σ l pos halfExtents bottomY :
  hasSupport_loop σ l pos halfExtents bottomY =
  any_block σ l (supports pos halfExtents bottomY).
Proof.
  induction l as [|r l IH]; simpl; [reflexivity|].
  destruct (block_box σ r) as [[bPos bHalf]|]; [|exact IH].
  destruct (supports pos halfExtents bottomY bPos bHalf); [reflexivity | exact IH].
Qed.

Lemma overlap_tol_true pos halfExtents t bPos bHalf :
  overlap_tol pos halfExtents t bPos bHalf = true <->
  boxes_overlap t pos halfExtents bPos bHalf.
Proof.
  unfold overlap_tol, boxes_overlap.
  rewrite !andb_true_iff, !ltb_lt. tauto.
Qed.

Lemma overlap_true pos halfExtents bPos bHalf :
  overlap pos halfExtents bPos bHalf = true <->
  strict_overlap pos halfExtents bPos bHalf.
Proof.
  unfold overlap, strict_overlap.
  rewrite !andb_true_iff, !ltb_lt. tauto.
Qed.

Lemma boxes_overlap_0 pos halfExtents bPos bHalf :
  boxes_overlap 0 pos halfExtents bPos bHalf <->
  strict_overlap pos halfExtents bPos bHalf.
Proof.
  unfold boxes_overlap, strict_overlap.
  assert (E : forall a, a - 0 == a) by (intros; ring).
  rewrite !E. tauto.
Qed.

Lemma overlap_tol_0 pos halfExtents bPos bHalf :
  overlap_tol pos halfExtents 0 bPos bHalf = overlap pos halfExtents bPos bHalf.
Proof.
  apply eq_true_iff_eq.
  rewrite overlap_tol_true, overlap_true. apply boxes_overlap_0.
Qed.

Lemma checkCollision_true s pos halfExtents :
  checkCollision s pos halfExtents = true <->
  exists bPos bHalf,
    dynamic_box s bPos bHalf /\ strict_overlap pos halfExtents bPos bHalf.
Proof.
  unfold checkCollision, dynamic_box.
  rewrite checkCollision_loop_any, any_block_true. split.
  - intros (r & p & h & Hin & Hb & Ho). exists p, h.
    split; [eauto | by apply overlap_true].
  - intros (p & h & (r & Hin & Hb) & Ho). exists r, p, h.
    split; [|split]; auto. by apply overlap_true.
Qed.

Lemma isValidPlacement_false s pos halfExtents t :
  isValidPlacement s pos halfExtents t = false <->
  exists bPos bHalf,
    dynamic_box s bPos bHalf /\ boxes_overlap t pos halfExtents bPos bHalf.
Proof.
  unfold isValidPlacement, dynamic_box.
  rewrite isValidPlacement_loop_any, negb_false_iff, any_block_true. split.
  - intros (r & p & h & Hin & Hb & Ho). exists p, h.
    split; [eauto | by apply overlap_tol_true].
  - intros (p & h & (r & Hin & Hb) & Ho). exists r, p, h.
    split; [|split]; auto. by apply overlap_tol_true.
Qed.

(** ** Collision *)


Lemma boxes_overlap_mono t1 t2 pos halfExtents bPos bHalf :
  t1 <= t2 ->
  boxes_overlap t2 pos halfExtents bPos bHalf ->
  boxes_overlap t1 pos halfExtents bPos bHalf.
Proof.
  unfold boxes_overlap. intros Ht (Hx & Hy & Hz).
  repeat split; eapply Qlt_le_trans; eauto; lra.
Qed.

Lemma isValidPlacement_0 s pos halfExtents :
  isValidPlacement s pos halfExtents 0 = negb (checkCollision s pos halfExtents).
Proof.
  unfold isValidPlacement, checkCollision.
  induction s.(bodies) as [|r l IH]; simpl; [reflexivity|].
  destruct (block_box _ r) as [[bPos bHalf]|]; [|exact IH].
  rewrite overlap_tol_0.
  destruct (overlap pos halfExtents bPos bHalf); [reflexivity | exact IH].
Qed.

(** C1, as stated, fails: with one 10x10x10 box centred at (20,0,0), the
    candidate of half-extents (5,5,5) at (20,0,0) collides, and
    [isValidPlacement] with tolerance 0 answers false, not true. *)
Lemma isValidPlacement_0_not_true :
  ~ (forall s pos halfExtents,
       checkCollision s pos halfExtents = true ->
       isValidPlacement s pos halfExtents 0 = true).
Proof.
  intros H.
  specialize (H (placeBody (box_block "office" (mkVec3 20 0 0) (mkVec3 5 5 5))
                           (new_PhysicsWorld ∅))
                (mkVec3 20 0 0) (mkVec3 5 5 5)).
  vm_compute in H. specialize (H eq_refl). discriminate.
Qed.

(** C1, amended.  With tolerance 0, [isValidPlacement] is the negation of
    [checkCollision]: a collision makes the placement invalid (false).  A
    larger tolerance only admits more: a placement valid at [t1] is valid at
    every [t2 >= t1], and in particular a placement without collision is
    valid at every tolerance [t >= 0].  And for some candidate within
    [t > 0] of a box, [isValidPlacement] with [t] is true while
    [checkCollision] is true. *)
Theorem isValidPlacement_more_permissive :
  (forall s pos halfExtents,
     isValidPlacement s pos halfExtents 0 = negb (checkCollision s pos halfExtents)) /\
  (forall s pos halfExtents,
     checkCollision s pos halfExtents = true ->
     isValidPlacement s pos halfExtents 0 = false) /\
  (forall s pos halfExtents t1 t2,
     t1 <= t2 ->
     isValidPlacement s pos halfExtents t1 = true ->
     isValidPlacement s pos halfExtents t2 = true) /\
  (forall s pos halfExtents t,
     0 <= t ->
     checkCollision s pos halfExtents = false ->
     isValidPlacement s pos halfExtents t = true) /\
  (exists s pos halfExtents t,
     0 < t /\
     checkCollision s pos halfExtents = true /\
     isValidPlacement s pos halfExtents t = true).
Proof.
  assert (Hmono : forall s pos halfExtents t1 t2,
            t1 <= t2 ->
            isValidPlacement s pos halfExtents t1 = true ->
            isValidPlacement s pos halfExtents t2 = true).
  { intros s pos halfExtents t1 t2 Ht H1.
    apply not_false_iff_true. rewrite isValidPlacement_false.
    intros (bPos & bHalf & Hd & Ho).
    apply not_false_iff_true in H1. apply H1, isValidPlacement_false.
    exists bPos, bHalf. split; [exact Hd|].
    by apply (boxes_overlap_mono t1 t2). }
  split; [exact isValidPlacement_0|].
  split; [|split; [exact Hmono|split]].
  - intros s pos halfExtents H. by rewrite isValidPlacement_0, H.
  - intros s pos halfExtents t Ht H.
    apply (Hmono s pos halfExtents 0 t Ht). by rewrite isValidPlacement_0, H.
  - exists (placeBody (box_block "office" (mkVec3 20 0 0) (mkVec3 5 5 5))
                      (new_PhysicsWorld ∅)),
           (mkVec3 29.8 0 0), (mkVec3 5 5 5), 0.5.
    split; [reflexivity|]. split; vm_compute; reflexivity.
Qed.

(** An instance of C1's monotonicity: the candidate 0.2 inside a box is
    valid at the default tolerance 0.5, hence at tolerance 1. *)
Lemma isValidPlacement_more_permissive_witness :
  let s := placeBody (box_block "office" (mkVec3 20 0 0) (mkVec3 5 5 5))
                     (new_PhysicsWorld ∅) in
  0.5 <= 1 /\
  isValidPlacement s (mkVec3 29.8 0 0) (mkVec3 5 5 5) 0.5 = true /\
  isValidPlacement s (mkVec3 29.8 0 0) (mkVec3 5 5 5) 1 = true.
Proof.
  intros s.
  assert (H1 : 0.5 <= 1) by (vm_compute; discriminate).
  assert (H2 : isValidPlacement s (mkVec3 29.8 0 0) (mkVec3 5 5 5) 0.5 = true)
    by (vm_compute; reflexivity).
  split; [exact H1|]. split; [exact H2|].
  exact (proj1 (proj2 (proj2 isValidPlacement_more_permissive))
           s (mkVec3 29.8 0 0) (mkVec3 5 5 5) 0.5 1 H1 H2).
Defined.

(** ** Height *)

Lemma getMaxHeight_loop_spec σ l acc :
  acc <= getMaxHeight_loop σ l acc /\
  (forall r bPos bHalf,
     r ∈ l -> block_box σ r = Some (bPos, bHalf) ->
     bPos.(y) + bHalf.(y) <= getMaxHeight_loop σ l acc) /\
  (getMaxHeight_loop σ l acc == acc \/
   exists r bPos bHalf,
     r ∈ l /\ block_box σ r = Some (bPos, bHalf) /\
     getMaxHeight_loop σ l acc == bPos.(y) + bHalf.(y)).
Proof.
  revert acc. induction l as [|r l IH]; intros acc; simpl.
  - split; [apply Qle_refl|]. split; [|left; reflexivity].
    intros r ? ? Hr. inversion Hr.
  - destruct (block_box σ r) as [[bPos bHalf]|] eqn:Hb.
    + destruct (IH (Qmax acc (bPos.(y) + bHalf.(y)))) as (Hacc & Hall & Hex).
      split; [|split].
      * eapply Qle_trans; [apply Q.le_max_l | exact Hacc].
      * intros r' p h Hin Hb'. apply elem_of_cons in Hin as [-> | Hin].
        -- rewrite Hb in Hb'. injection Hb' as <- <-.
           eapply Qle_trans; [apply Q.le_max_r | exact Hacc].
        -- eauto.
      * destruct Hex as [Heq | (r' & p & h & Hin & Hb' & Heq)].
        -- destruct (Q.max_spec acc (bPos.(y) + bHalf.(y))) as [[_ Hm] | [_ Hm]].
           ++ right. exists r, bPos, bHalf.
              split; [left|]. split; [exact Hb|]. by rewrite Heq.
           ++ left. by rewrite Heq.
        -- right. exists r', p, h. split; [right; exact Hin | auto].
    + destruct (IH acc) as (Hacc & Hall & Hex).
      split; [exact Hacc|]. split.
      * intros r' p h Hin Hb'. apply elem_of_cons in Hin as [-> | Hin];
          [congruence | eauto].
      * destruct Hex as [Heq | (r' & p & h & Hin & Hb' & Heq)]; [by left|].
        right. exists r', p, h. split; [right; exact Hin | auto].
Qed.

Lemma block_box_placeBody body s :
  block_box (placeBody body s).(store) (fresh (dom s.(store))) =
  if has_blockType body then
    match body.(shapes) with
    | Box bHalf :: _ => Some (body.(position), bHalf)
    | _ => None
    end
  else None.
Proof.
  unfold placeBody, alloc, addBody, block_box. simpl.
  rewrite lookup_alter, decide_True by reflexivity.
  rewrite lookup_insert_eq. reflexivity.
Qed.

Lemma bodies_placeBody body s :
  (placeBody body s).(bodies) = s.(bodies) ++ [fresh (dom s.(store))].
Proof. reflexivity. Qed.


(** ** Support *)

Lemma supports_true pos halfExtents bPos bHalf :
  supports pos halfExtents (pos.(y) - halfExtents.(y)) bPos bHalf = true <->
  supporting_box pos halfExtents bPos bHalf.
Proof.
  unfold supports, supporting_box, projection_overlap.
  destruct (Js.ltb _ 1.0) eqn:Hnear.
  - rewrite andb_true_iff, !geb_ge. apply ltb_lt in Hnear.
    assert (E : 1.0 == 1) by reflexivity. rewrite E in Hnear. tauto.
  - split; [discriminate|]. intros (Hn & _).
    assert (E : 1 == 1.0) by reflexivity. rewrite E in Hn.
    apply ltb_lt in Hn. congruence.
Qed.

(** C2. [hasSupport] is true exactly when (a) the candidate's bottom face
    (centre Y minus half-extent Y) is at most 0.5, the ground being at Y = 0,
    or (b) some dynamic body has its top face within 1.0 of that bottom face
    and shares with the candidate, on each of X and Z, a projection overlap
    (clamped at 0) of at least 0.4 times the candidate's half-extent.  The
    two "within" are the code's: "within 0.5 of the ground" is
    [bottomY <= 0.5], bound included (and below the ground included; for a
    bottom face not below the ground it is the distance to Y = 0 being at
    most 0.5), and "within 1.0" is the strict [|top - bottom| < 1.0], a gap
    of exactly 1.0 giving no support.  So a bottom face at most 0.5 is
    supported whatever the bodies, and a bottom face at 95 is not when no
    body's top face is within 1.0 of 95, as for a block of half-extent 5
    centred at Y = 100.  A registered block does give support: once a block
    with box [bPos], [bHalf] is registered, every candidate that box supports
    is supported, and when it is the only block those and the candidates near
    the ground are the only ones; with one 20 x 15 x 20 block on the ground
    at the origin, a 10 x 30 x 10 candidate is supported centred on its top,
    not 14 off centre, not with a gap of exactly 1.0, again with a gap of
    0.9, and beside the block with its bottom at 0.5 but not at 0.6. *)
Theorem hasSupport_ground_or_block :
  (forall s pos halfExtents,
     hasSupport s pos halfExtents = true <->
     pos.(y) - halfExtents.(y) <= 0.5 \/
     exists bPos bHalf,
       dynamic_box s bPos bHalf /\ supporting_box pos halfExtents bPos bHalf) /\
  (forall s pos halfExtents,
     0 <= pos.(y) - halfExtents.(y) ->
     (hasSupport s pos halfExtents = true <->
      Qabs (pos.(y) - halfExtents.(y) - 0) <= 0.5 \/
      exists bPos bHalf,
        dynamic_box s bPos bHalf /\ supporting_box pos halfExtents bPos bHalf)) /\
  (forall s pos halfExtents,
     pos.(y) - halfExtents.(y) <= 0.5 -> hasSupport s pos halfExtents = true) /\
  (forall s pos halfExtents,
     pos.(y) - halfExtents.(y) == 95 ->
     (forall bPos bHalf,
        dynamic_box s bPos bHalf -> ~ Qabs (bPos.(y) + bHalf.(y) - 95) < 1) ->
     hasSupport s pos halfExtents = false) /\
  (forall s px pz,
     (forall bPos bHalf,
        dynamic_box s bPos bHalf -> ~ Qabs (bPos.(y) + bHalf.(y) - 95) < 1) ->
     hasSupport s (mkVec3 px 100 pz) (mkVec3 5 5 5) = false) /\
  (forall s pos halfExtents bPos bHalf,
     supporting_box pos halfExtents bPos bHalf ->
     hasSupport (placeBody (box_block "office" bPos bHalf) s) pos halfExtents
     = true) /\
  (forall s pos halfExtents bPos bHalf,
     s.(bodies) = [] ->
     (hasSupport (placeBody (box_block "office" bPos bHalf) s) pos halfExtents
      = true <->
      pos.(y) - halfExtents.(y) <= 0.5 \/
      supporting_box pos halfExtents bPos bHalf)) /\
  (let s := placeBody (box_block "foundation" (mkVec3 0 7.5 0) (mkVec3 10 7.5 10))
                      (new_PhysicsWorld ∅) in
   hasSupport s (mkVec3 0 30 0) (mkVec3 5 15 5) = true /\
   hasSupport s (mkVec3 14 30 0) (mkVec3 5 15 5) = false /\
   hasSupport s (mkVec3 0 31 0) (mkVec3 5 15 5) = false /\
   hasSupport s (mkVec3 0 30.9 0) (mkVec3 5 15 5) = true /\
   hasSupport s (mkVec3 50 15.5 0) (mkVec3 5 15 5) = true /\
   hasSupport s (mkVec3 50 15.6 0) (mkVec3 5 15 5) = false).
Proof.
  assert (Hiff : forall s pos halfExtents,
            hasSupport s pos halfExtents = true <->
            pos.(y) - halfExtents.(y) <= 0.5 \/
            exists bPos bHalf,
              dynamic_box s bPos bHalf /\
              supporting_box pos halfExtents bPos bHalf).
  { intros s pos halfExtents. unfold hasSupport, dynamic_box.
    destruct (Js.leb _ 0.5) eqn:Hg.
    - apply leb_le in Hg. tauto.
    - rewrite hasSupport_loop_any, any_block_true. split.
      + intros (r & p & h & Hin & Hb & Ht). right. exists p, h.
        split; [eauto | by apply supports_true].
      + intros [Hle | (p & h & (r & Hin & Hb) & Ht)].
        * apply leb_le in Hle. congruence.
        * exists r, p, h. split; [|split]; auto. by apply supports_true. }
  assert (Hfloat : forall s pos halfExtents,
            pos.(y) - halfExtents.(y) == 95 ->
            (forall bPos bHalf,
               dynamic_box s bPos bHalf ->
               ~ Qabs (bPos.(y) + bHalf.(y) - 95) < 1) ->
            hasSupport s pos halfExtents = false).
  { intros s pos halfExtents Hb Hnone.
    apply not_true_iff_false. rewrite Hiff.
    intros [Hle | (p & h & Hd & Hnear & _)].
    - rewrite Hb in Hle. revert Hle. apply Qlt_not_le. reflexivity.
    - rewrite Hb in Hnear. by apply (Hnone p h). }
  assert (Hnew : forall s bPos bHalf,
            block_box (placeBody (box_block "office" bPos bHalf) s).(store)
              (fresh (dom s.(store))) = Some (bPos, bHalf)).
  { intros s bPos bHalf. by rewrite block_box_placeBody. }
  assert (Hblock : forall s pos halfExtents bPos bHalf,
            supporting_box pos halfExtents bPos bHalf ->
            hasSupport (placeBody (box_block "office" bPos bHalf) s)
              pos halfExtents = true).
  { intros s pos halfExtents bPos bHalf Hsup. apply Hiff. right.
    exists bPos, bHalf. split; [|exact Hsup].
    exists (fresh (dom s.(store))). split; [|apply Hnew].
    rewrite bodies_placeBody. apply elem_of_app. right. apply list_elem_of_here. }
  split; [exact Hiff|].
  split; [|split; [|split; [exact Hfloat|split; [|split; [exact Hblock|split]]]]].
  - intros s pos halfExtents Hpos. rewrite Hiff.
    assert (Ha : Qabs (pos.(y) - halfExtents.(y) - 0) <= 0.5 <->
                 pos.(y) - halfExtents.(y) <= 0.5).
    { rewrite Qabs_Qle_condition. split; [intros [_ H] | intros H; split]; lra. }
    rewrite Ha. tauto.
  - intros s pos halfExtents H. apply Hiff. by left.
  - intros s px pz Hnone. apply Hfloat; [reflexivity | exact Hnone].
  - intros s pos halfExtents bPos bHalf Hs. split.
    + intros H. apply Hiff in H as [Hg | (p & h & (r & Hr & Hb) & Hsup)];
        [by left|]. right.
      rewrite bodies_placeBody, Hs in Hr.
      apply list_elem_of_singleton in Hr as ->.
      rewrite Hnew in Hb. by injection Hb as <- <-.
    + intros [Hg | Hsup]; [apply Hiff; by left | by apply Hblock].
  - repeat split.
Qed.

(** ** The registry *)

Lemma indexOf_notin (l : list ref) (b : ref) :
  b ∉ l -> indexOf l b = (-1)%Z.
Proof.
  induction l as [|r l IH]; intros Hb; simpl; [reflexivity|].
  apply not_elem_of_cons in Hb as [Hne Hb].
  destruct (Nat.eqb_spec r b) as [-> | _]; [by destruct Hne|].
  by rewrite (IH Hb).
Qed.

Lemma indexOf_in (l : list ref) (b : ref) :
  b ∈ l ->
  exists l1 l2,
    l = l1 ++ b :: l2 /\ (b ∉ l1) /\ indexOf l b = Z.of_nat (length l1).
Proof.
  induction l as [|r l IH]; intros Hb; [inversion Hb|]. simpl.
  destruct (Nat.eqb_spec r b) as [-> | Hne].
  - exists [], l. split; [reflexivity|]. split; [apply not_elem_of_nil | reflexivity].
  - apply elem_of_cons in Hb as [-> | Hb]; [by destruct Hne|].
    destruct (IH Hb) as (l1 & l2 & -> & Hl1 & Hi).
    exists (r :: l1), l2. split; [reflexivity|]. split.
    + apply not_elem_of_cons. split; [congruence | exact Hl1].
    + rewrite Hi. destruct (Z.gtb_spec (Z.of_nat (length l1)) (-1)); simpl length; lia.
Qed.

Lemma splice1_app (l1 l2 : list ref) (b : ref) :
  splice1 (Z.of_nat (length l1)) (l1 ++ b :: l2) = l1 ++ l2.
Proof.
  unfold splice1. rewrite Nat2Z.id.
  induction l1 as [|r l1 IH]; simpl; [reflexivity | by rewrite IH].
Qed.

Lemma removeBody_notin b s : b ∉ s.(bodies) -> removeBody b s = s.
Proof. intros H. unfold removeBody. by rewrite (indexOf_notin _ _ H). Qed.

Lemma removeBody_in b s :
  b ∈ s.(bodies) ->
  exists l1 l2,
    s.(bodies) = l1 ++ b :: l2 /\ (b ∉ l1) /\
    removeBody b s =
      {| store := s.(store); world := World_removeBody b s.(world);
         defaultMaterial := s.(defaultMaterial); bodies := l1 ++ l2;
         groundBody := s.(groundBody) |}.
Proof.
  intros H. destruct (indexOf_in _ _ H) as (l1 & l2 & Hl & Hl1 & Hi).
  exists l1, l2. split; [exact Hl|]. split; [exact Hl1|].
  unfold removeBody. rewrite Hi.
  destruct (Z.gtb_spec (Z.of_nat (length l1)) (-1)); [|lia].
  by rewrite Hl, splice1_app.
Qed.

(** C9. [removeBody] of a body that is not in the registry (never added, or
    removed already) changes nothing, neither the registry nor the physics
    world, and fails in no way.  For a body in the registry, its first entry
    leaves the registry, the others staying in order, and the body leaves
    the physics world; a body registered once is in neither afterwards, so
    removing it again changes nothing. *)
Theorem removeBody_unknown_noop :
  (forall b s, b ∉ s.(bodies) -> removeBody b s = s) /\
  (forall b s,
     b ∈ s.(bodies) ->
     exists l1 l2,
       s.(bodies) = l1 ++ b :: l2 /\ (b ∉ l1) /\
       (removeBody b s).(bodies) = l1 ++ l2 /\
       (removeBody b s).(world) = World_removeBody b s.(world) /\
       (b ∉ (removeBody b s).(world).(world_bodies)) /\
       (removeBody b s).(store) = s.(store) /\
       (removeBody b s).(groundBody) = s.(groundBody) /\
       (b ∉ l2 ->
        (b ∉ (removeBody b s).(bodies)) /\
        removeBody b (removeBody b s) = removeBody b s)).
Proof.
  split; [exact removeBody_notin|].
  intros b s Hin. destruct (removeBody_in b s Hin) as (l1 & l2 & Hl & Hl1 & ->).
  exists l1, l2. simpl. repeat (split; [done|]).
  split; [rewrite elem_of_difference, elem_of_singleton; tauto|].
  repeat (split; [done|]).
  intros Hl2.
  assert (Hout : b ∉ l1 ++ l2) by (rewrite elem_of_app; tauto).
  split; [exact Hout|]. by apply removeBody_notin.
Qed.

(** ** Reset *)

Lemma removeBody_head r l s :
  s.(bodies) = r :: l ->
  removeBody r s =
    {| store := s.(store); world := World_removeBody r s.(world);
       defaultMaterial := s.(defaultMaterial); bodies := l;
       groundBody := s.(groundBody) |}.
Proof.
  intros H. unfold removeBody. rewrite H. simpl.
  by rewrite Nat.eqb_refl.
Qed.

Lemma World_without_empty w : World_without ∅ w = w.
Proof.
  destruct w. unfold World_without. simpl. f_equal.
  apply set_eq. intros r. rewrite elem_of_difference, elem_of_empty. tauto.
Qed.

Lemma World_without_cons r l w :
  World_without (list_to_set l) (World_removeBody r w) =
  World_without (list_to_set (r :: l)) w.
Proof.
  unfold World_without, World_removeBody. simpl. f_equal.
  apply set_eq. intros b.
  rewrite !elem_of_difference, elem_of_union, elem_of_singleton. tauto.
Qed.

(** The loop of [reset] over the copy [l] of the registry. *)
Lemma reset_loop l : forall s,
  s.(bodies) = l ->
  fold_left (fun st body => removeBody body st) l s =
    {| store := s.(store); world := World_without (list_to_set l) s.(world);
       defaultMaterial := s.(defaultMaterial); bodies := [];
       groundBody := s.(groundBody) |}.
Proof.
  induction l as [|r l IH]; intros s Hs; simpl.
  - rewrite World_without_empty. destruct s. simpl in *. by subst.
  - rewrite (removeBody_head r l s Hs), IH by reflexivity. simpl.
    by rewrite World_without_cons.
Qed.

Lemma reset_eq s :
  reset s =
    {| store := s.(store);
       world := World_without (list_to_set s.(bodies)) s.(world);
       defaultMaterial := s.(defaultMaterial); bodies := [];
       groundBody := s.(groundBody) |}.
Proof. unfold reset. by apply reset_loop. Qed.

Lemma reset_empty s : s.(bodies) = [] -> reset s = s.
Proof. intros H. unfold reset. by rewrite H. Qed.

(** C5. [reset] empties the registry and takes each registered body out of
    the physics world, nothing else: the ground body, not being registered,
    stays simulated.  On an empty registry [reset] changes nothing, so a
    second [reset] changes nothing; and after any [reset], [getMaxHeight] is
    0 and [checkCollision] is false for every position and half-extents. *)
Theorem reset_clears_registry :
  (forall s,
     (reset s).(bodies) = [] /\
     (reset s).(world) = World_without (list_to_set s.(bodies)) s.(world) /\
     (forall b, b ∈ s.(bodies) -> b ∉ (reset s).(world).(world_bodies)) /\
     (reset s).(groundBody) = s.(groundBody) /\
     (reset s).(store) = s.(store)) /\
  (forall s,
     ground_not_registered s -> ground_simulated s ->
     ground_not_registered (reset s) /\ ground_simulated (reset s)) /\
  (forall s, s.(bodies) = [] -> reset s = s) /\
  (forall s, reset (reset s) = reset s) /\
  (forall s, getMaxHeight (reset s) == 0) /\
  (forall s pos halfExtents, checkCollision (reset s) pos halfExtents = false).
Proof.
  split; [|split; [|split; [|split; [|split]]]].
  - intros s. rewrite reset_eq. simpl. repeat (split; [reflexivity|]).
    split; [|split; reflexivity].
    intros b Hb. rewrite elem_of_difference, elem_of_list_to_set. tauto.
  - intros s Hreg (g & Hg & Hw). rewrite reset_eq. split.
    + intros g' _. simpl. apply not_elem_of_nil.
    + exists g. simpl. split; [exact Hg|].
      rewrite elem_of_difference, elem_of_list_to_set.
      split; [exact Hw | by apply Hreg].
  - exact reset_empty.
  - intros s. apply reset_empty. by rewrite reset_eq.
  - intros s. rewrite reset_eq. reflexivity.
  - intros s pos halfExtents. rewrite reset_eq. reflexivity.
Qed.

(** C5 on a world of two blocks: after [reset] the ground body is still
    simulated and still unregistered. *)
Lemma reset_clears_registry_witness :
  let s := placeBody (box_block "spire" (mkVec3 0 40 0) (mkVec3 2.5 25 2.5))
             (placeBody (box_block "office" (mkVec3 20 0 0) (mkVec3 5 5 5))
                (new_PhysicsWorld ∅)) in
  ground_not_registered (reset s) /\ ground_simulated (reset s).
Proof.
  intros s.
  apply (proj1 (proj2 reset_clears_registry) s).
  - intros g Hg. injection Hg as <-. vm_compute.
    intros H. repeat (apply elem_of_cons in H as [H | H]; [discriminate|]).
    inversion H.
  - exists 0%nat. split; [reflexivity|].
    apply (bool_decide_unpack _). vm_compute. exact I.
Defined.

(** ** The ground body and the registry *)

Lemma new_PhysicsWorld_ground σ :
  (new_PhysicsWorld σ).(groundBody) = Some (fresh (dom σ)) /\
  (new_PhysicsWorld σ).(bodies) = [] /\
  fresh (dom σ) ∈ (new_PhysicsWorld σ).(world).(world_bodies).
Proof.
  split; [reflexivity|]. split; [reflexivity|]. simpl.
  apply elem_of_union. left. by apply elem_of_singleton.
Qed.

Lemma bodies_removeBody_subseteq b s r :
  r ∈ (removeBody b s).(bodies) -> r ∈ s.(bodies).
Proof.
  destruct (decide (b ∈ s.(bodies))) as [Hin | Hout].
  - destruct (removeBody_in b s Hin) as (l1 & l2 & Hl & _ & ->). simpl.
    rewrite Hl, !elem_of_app, elem_of_cons. tauto.
  - by rewrite (removeBody_notin b s Hout).
Qed.

(** C8, as stated, fails: [addBody] checks nothing, so handed the ground
    body of a new world it registers it, and the next [reset] takes the
    ground body out of the physics world. *)
Lemma addBody_ground_registers_it :
  let s := new_PhysicsWorld ∅ in
  s.(groundBody) = Some 0%nat /\
  ground_not_registered s /\
  ~ ground_not_registered (addBody 0%nat s) /\
  ~ ground_simulated (reset (addBody 0%nat s)).
Proof.
  intros s. split; [reflexivity|]. split; [|split].
  - intros g _. apply not_elem_of_nil.
  - intros H. apply (H 0%nat); [reflexivity|]. apply list_elem_of_here.
  - intros (g & Hg & Hw). rewrite reset_eq in Hg, Hw.
    change (Some 0%nat = Some g) in Hg. injection Hg as <-.
    cbn [world world_bodies World_without] in Hw.
    apply elem_of_difference in Hw as [_ Hw]. apply Hw.
    apply elem_of_list_to_set. exact (list_elem_of_here 0%nat []).
Qed.

(** C8, amended.  The ground body is not in the registry after
    construction, and stays out of it under [removeBody], [reset], [update],
    and [addBody] of any body other than the ground body.  While it is out
    of the registry it cannot be removed through it: [removeBody] of the
    ground body changes nothing, and neither [removeBody] of another body
    nor [reset] takes it out of the physics world. *)
Theorem ground_stays_unregistered :
  (forall σ,
     ground_not_registered (new_PhysicsWorld σ) /\
     ground_simulated (new_PhysicsWorld σ)) /\
  (forall b s,
     ground_not_registered s -> s.(groundBody) <> Some b ->
     ground_not_registered (addBody b s)) /\
  (forall b s,
     ground_not_registered s -> ground_not_registered (removeBody b s)) /\
  (forall s, ground_not_registered s -> ground_not_registered (reset s)) /\
  (forall step deltaTime s,
     ground_not_registered s -> ground_not_registered (update step deltaTime s)) /\
  (forall g s,
     ground_not_registered s -> s.(groundBody) = Some g ->
     removeBody g s = s) /\
  (forall b s,
     ground_not_registered s -> ground_simulated s ->
     ground_simulated (removeBody b s) /\ ground_simulated (reset s)).
Proof.
  split; [|split; [|split; [|split; [|split; [|split]]]]].
  - intros σ. destruct (new_PhysicsWorld_ground σ) as (Hg & Hb & Hw). split.
    + intros g _. rewrite Hb. apply not_elem_of_nil.
    + exists (fresh (dom σ)). auto.
  - intros b s Hinv Hb g Hg. simpl in *.
    rewrite elem_of_app, list_elem_of_singleton.
    intros [Hin | ->]; [by apply (Hinv g) | congruence].
  - intros b s Hinv g Hg Hin.
    assert (Hg' : s.(groundBody) = Some g).
    { revert Hg. unfold removeBody. by destruct (_ >? _)%Z. }
    apply (Hinv g Hg'). by apply (bodies_removeBody_subseteq b).
  - intros s _ g _. rewrite reset_eq. apply not_elem_of_nil.
  - intros step deltaTime s Hinv g Hg. by apply Hinv.
  - intros g s Hinv Hg. apply removeBody_notin. by apply Hinv.
  - intros b s Hinv (g & Hg & Hw). split.
    + destruct (decide (b ∈ s.(bodies))) as [Hin | Hout].
      * destruct (removeBody_in b s Hin) as (l1 & l2 & _ & _ & ->).
        exists g. simpl. split; [exact Hg|].
        rewrite elem_of_difference, elem_of_singleton.
        split; [exact Hw|]. intros ->. by apply (Hinv b).
      * rewrite (removeBody_notin b s Hout). by exists g.
    + exists g. rewrite reset_eq. simpl. split; [exact Hg|].
      rewrite elem_of_difference, elem_of_list_to_set.
      split; [exact Hw | by apply Hinv].
Qed.

(** C8 on a new world with one block added: the ground body (reference 0)
    is neither registered by adding the block (reference 1) nor removable
    through the registry. *)
Lemma ground_stays_unregistered_witness :
  let s0 := (alloc (box_block "office" (mkVec3 20 0 0) (mkVec3 5 5 5))
               (new_PhysicsWorld ∅)).2 in
  ground_not_registered (addBody 1%nat s0) /\
  removeBody 0%nat (addBody 1%nat s0) = addBody 1%nat s0.
Proof.
  intros s0.
  assert (H0 : ground_not_registered s0)
    by (intros g _; apply not_elem_of_nil).
  assert (H1 : ground_not_registered (addBody 1%nat s0)).
  { apply (proj1 (proj2 ground_stays_unregistered) 1%nat s0 H0).
    simpl. discriminate. }
  split; [exact H1|].
  exact (proj1 (proj2 (proj2 (proj2 (proj2 (proj2 ground_stays_unregistered)))))
           0%nat (addBody 1%nat s0) H1 eq_refl).
Defined.

(** ** Materials *)

Lemma removeBody_fields b s :
  (removeBody b s).(store) = s.(store) /\
  (removeBody b s).(defaultMaterial) = s.(defaultMaterial) /\
  (removeBody b s).(groundBody) = s.(groundBody) /\
  (removeBody b s).(world).(defaultContactMaterial) =
    s.(world).(defaultContactMaterial).
Proof. unfold removeBody. by destruct (_ >? _)%Z. Qed.

Lemma built_default_contact s : built s -> default_contact s.
Proof.
  unfold default_contact.
  induction 1 as [σ | body s _ IH | b s _ IH _ | b s _ IH | s _ IH
                 | step deltaTime s _ IH _]; try exact IH.
  - split; [reflexivity|]. eexists. split; [reflexivity|].
    split; [reflexivity|]. split; reflexivity.
  - destruct (removeBody_fields b s) as (_ & -> & _ & ->). exact IH.
  - rewrite reset_eq. exact IH.
Qed.

Lemma built_registered_default s : built s -> registered_default s.
Proof.
  unfold registered_default.
  induction 1 as [σ | body s _ IH | b s _ IH Hb | b s _ IH | s _ IH
                 | step deltaTime s _ IH Hstep]; intros r Hr.
  - inversion Hr.
  - destruct (IH r Hr) as (body' & Hl & Hm). exists body'. simpl.
    split; [|exact Hm]. rewrite lookup_insert_ne; [exact Hl|].
    intros <-. apply (is_fresh (dom s.(store))).
    apply elem_of_dom. by exists body'.
  - simpl in *. rewrite lookup_alter.
    destruct (decide (b = r)) as [<- | Hne].
    + destruct Hb as [body Hl]. rewrite Hl. by eexists.
    + apply elem_of_app in Hr as [Hr | Hr]; [by apply IH|].
      apply list_elem_of_singleton in Hr. congruence.
  - destruct (removeBody_fields b s) as (-> & -> & _).
    apply IH. by apply (bodies_removeBody_subseteq b).
  - rewrite reset_eq in Hr. inversion Hr.
  - simpl in *. destruct (IH r Hr) as (body & Hl & Hm).
    specialize (Hstep (1 / 60) deltaTime 3%Z s.(world) s.(store) r).
    rewrite Hl in Hstep. inversion Hstep as [? body' (_ & _ & Hmat & _) |]; subst.
    exists body'. split; [done | congruence].
Qed.

(** C10. [addBody] gives the body the world's default material, whatever
    material it had, leaves its other fields as they were, leaves every
    other body as it was, and registers it.  The default material is the one
    the world's contact material pairs with itself with friction 0.5 and
    restitution 0.1, and in every world the operations build each registered
    body carries it: the material a block got from the catalogue, with
    friction 0.7, 0.6 or 0.5, is gone once the block is registered. *)
Theorem addBody_overwrites_material :
  (forall b s body,
     s.(store) !! b = Some body ->
     exists body',
       (addBody b s).(store) !! b = Some body' /\
       body'.(material) = Some s.(defaultMaterial) /\
       body'.(mass) = body.(mass) /\
       body'.(position) = body.(position) /\
       body'.(shapes) = body.(shapes) /\
       body'.(linearDamping) = body.(linearDamping) /\
       body'.(angularDamping) = body.(angularDamping) /\
       body'.(userData) = body.(userData)) /\
  (forall b s body m,
     s.(store) !! b = Some body ->
     (addBody b
        {| store := <[ b := set_material m body ]> s.(store);
           world := s.(world); defaultMaterial := s.(defaultMaterial);
           bodies := s.(bodies); groundBody := s.(groundBody) |}).(store) !! b =
     (addBody b s).(store) !! b) /\
  (forall b r s, r <> b -> (addBody b s).(store) !! r = s.(store) !! r) /\
  (forall b s,
     b ∈ (addBody b s).(bodies) /\
     b ∈ (addBody b s).(world).(world_bodies) /\
     (addBody b s).(defaultMaterial) = s.(defaultMaterial)) /\
  (forall s, built s -> default_contact s /\ registered_default s) /\
  (forall m blockType pos config body s,
     BLOCK_TYPES blockType = Some config ->
     createBlock m blockType pos = Some body ->
     body.(material) = Some (OptionsMaterial config.(Config.friction) 0.1) /\
     (blockType = "foundation"%string /\ config.(Config.friction) = 0.7 \/
      blockType = "office"%string /\ config.(Config.friction) = 0.6 \/
      blockType = "spire"%string /\ config.(Config.friction) = 0.5) /\
     exists body',
       (placeBody body s).(store) !! fresh (dom s.(store)) = Some body' /\
       body'.(material) = Some s.(defaultMaterial)).
Proof.
  split; [|split; [|split; [|split; [|split]]]].
  - intros b s body Hl. exists (set_material s.(defaultMaterial) body).
    simpl. rewrite lookup_alter, decide_True, Hl by reflexivity.
    repeat split.
  - intros b s body m Hl. simpl.
    rewrite !lookup_alter, !decide_True by reflexivity.
    by rewrite lookup_insert_eq, Hl.
  - intros b r s Hne. simpl. rewrite lookup_alter, decide_False; congruence.
  - intros b s. simpl. split; [|split; [|reflexivity]].
    + apply elem_of_app. right. apply list_elem_of_here.
    + apply elem_of_union. left. by apply elem_of_singleton.
  - intros s Hs. split; [by apply built_default_contact
                        | by apply built_registered_default].
  - intros m blockType pos config body s Hc Hb.
    unfold createBlock, createBlockBody in Hb. rewrite Hc in Hb.
    injection Hb as <-. simpl. split; [reflexivity|]. split.
    + unfold BLOCK_TYPES in Hc.
      destruct (String.eqb_spec blockType "foundation") as [-> | _];
        [injection Hc as <-; auto|].
      destruct (String.eqb_spec blockType "office") as [-> | _];
        [injection Hc as <-; auto|].
      destruct (String.eqb_spec blockType "spire") as [-> | _];
        [injection Hc as <-; auto | discriminate].
    + unfold placeBody, alloc, addBody. simpl.
      rewrite lookup_alter, decide_True by reflexivity.
      rewrite lookup_insert_eq. by eexists.
Qed.

(** C10 on a new world: an office block of the catalogue, created with
    friction 0.6 and registered, carries the default material. *)
Lemma addBody_overwrites_material_witness :
  let s := update demo_step 0.25
             (placeBody (box_block "office" (mkVec3 0 15 0) (mkVec3 5 15 5))
                        (new_PhysicsWorld ∅)) in
  default_contact s /\ registered_default s.
Proof.
  intros s.
  apply (proj1 (proj2 (proj2 (proj2 (proj2 addBody_overwrites_material)))) s).
  unfold s, placeBody. apply built_update.
  - apply (built_addBody 1%nat (alloc _ (new_PhysicsWorld ∅)).2).
    + apply built_alloc, built_new.
    + eexists. reflexivity.
  - intros fixedTimeStep deltaTime maxSubSteps w σ r. unfold demo_step.
    rewrite lookup_fmap. destruct (σ !! r); constructor. repeat split.
Defined.

(** ** Grid snapping *)

Lemma round_near (a : Q) : a - (1 # 2) < Js.round a /\ Js.round a <= a + (1 # 2).
Proof.
  unfold Js.round.
  pose proof (Qfloor_le (a + (1 # 2))) as Hle.
  pose proof (Qlt_floor (a + (1 # 2))) as Hlt.
  rewrite inject_Z_plus in Hlt. change (inject_Z 1) with 1 in Hlt.
  split; lra.
Qed.

Lemma round_mono (a b : Q) : a <= b -> Js.round a <= Js.round b.
Proof.
  intros H. unfold Js.round. rewrite <- Zle_Qle.
  apply Qfloor_resp_le. lra.
Qed.

Lemma snap5_spec (b : Q) : snapped5 (Js.round (b / 5) * 5) b.
Proof.
  unfold snapped5, multiple_of. split; [reflexivity|]. split.
  - exists (Qfloor (b / 5 + (1 # 2))). reflexivity.
  - destruct (round_near (b / 5)) as [Hlo Hhi].
    assert (E : b == b / 5 * 5) by (field).
    apply Qabs_Qle_condition. split; lra.
Qed.

Lemma clamp80_range (a : Q) : -80 <= clamp80 a /\ clamp80 a <= 80.
Proof.
  unfold clamp80. split; [apply Q.le_max_l|].
  apply Q.max_lub; [discriminate | apply Q.le_min_l].
Qed.

Lemma clamp80_id (a : Q) : -80 <= a -> a <= 80 -> clamp80 a == a.
Proof.
  intros Hlo Hhi. unfold clamp80.
  rewrite (Q.min_r 80 a Hhi). by apply Q.max_r.
Qed.

Lemma snap5_range (b : Q) :
  -80 <= b -> b <= 80 ->
  -80 <= Js.round (b / 5) * 5 /\ Js.round (b / 5) * 5 <= 80.
Proof.
  intros Hlo Hhi.
  assert (E : b == b / 5 * 5) by field.
  assert (H1 : Js.round (-16) <= Js.round (b / 5)) by (apply round_mono; lra).
  assert (H2 : Js.round (b / 5) <= Js.round 16) by (apply round_mono; lra).
  assert (E1 : Js.round (-16) == -16) by reflexivity.
  assert (E2 : Js.round 16 == 16) by reflexivity.
  rewrite E1 in H1. rewrite E2 in H2. split; lra.
Qed.

(** ** Placement resolution *)

Section Placement_properties.

Variable Ray : Type.
Variable intersectObjects : Ray -> list ref -> list THREE.Intersection.
Variable transformDirection : Vec3 -> ref -> Vec3.
Variable intersectPlane : Ray -> option Vec3.

Local Abbreviation top := (top_face transformDirection).
Local Abbreviation hits := (block_hits intersectObjects).
Local Abbreviation resolve :=
  (getPlacementPosition intersectObjects transformDirection intersectPlane).

Lemma getPlacementPosition_hits c ray :
  resolve c ray =
  match block_placement transformDirection c (hits c ray) with
  | Some info => Some info
  | None => ground_placement intersectPlane c ray
  end.
Proof.
  unfold getPlacementPosition, block_hits.
  by destruct (0 <? length c.(blockMeshes))%nat.
Qed.

Lemma block_placement_none c l :
  (forall i, i ∈ l -> top i = false) ->
  block_placement transformDirection c l = None.
Proof.
  induction l as [|i l IH]; intros H; simpl; [reflexivity|].
  rewrite (H i) by apply list_elem_of_here.
  apply IH. intros k Hk. apply H. by apply list_elem_of_further.
Qed.



(** C3. When no intersection of the pick ray with a block surface
    qualifies as a top face: if the ray meets the ground plane, the result
    is an on-ground candidate, [onBlock] false and no target block, with
    resting height and Y exactly 0, whose X and Z are the hit's X and Z
    clamped to [-80, 80] and then snapped to the nearest multiple of 5, hence
    multiples of 5 within [-80, 80]; if the ray does not meet the ground
    plane, the result is the absent candidate. *)
Theorem ground_placement_clamped_snapped (meshes : list ref) (ray : Ray) :
  let c := setBlockMeshes meshes new_GameControls in
  (forall i, i ∈ hits c ray -> top i = false) ->
  (forall hit,
     intersectPlane ray = Some hit ->
     exists info,
       resolve c ray = Some info /\
       info.(Placement.onBlock) = false /\
       info.(Placement.targetBlock) = None /\
       info.(Placement.surfaceY) = 0 /\
       info.(Placement.position).(y) = 0 /\
       snapped5 info.(Placement.position).(x) (clamp80 hit.(x)) /\
       snapped5 info.(Placement.position).(z) (clamp80 hit.(z)) /\
       -80 <= info.(Placement.position).(x) <= 80 /\
       -80 <= info.(Placement.position).(z) <= 80) /\
  (intersectPlane ray = None -> resolve c ray = None).
Proof.
  intros c Hnone.
  pose proof (getPlacementPosition_hits c ray) as Hres.
  rewrite (block_placement_none c _ Hnone) in Hres.
  unfold ground_placement in Hres. split.
  - intros hit Hhit. rewrite Hhit in Hres. eexists. split; [exact Hres|].
    simpl. repeat (split; [reflexivity|]).
    split; [apply snap5_spec|]. split; [apply snap5_spec|].
    split; apply snap5_range; apply clamp80_range.
  - intros Hmiss. by rewrite Hmiss in Hres.
Qed.


End Placement_properties.

(** C3 on the demo scene without blocks: the ground hit (83, 0, -12.6) is
    clamped to X = 80 and snapped to (80, 0, -15). *)
Lemma ground_placement_clamped_snapped_witness :
  exists info,
    getPlacementPosition demo_intersectObjects demo_transformDirection
      demo_intersectPlane (setBlockMeshes [] new_GameControls) tt = Some info /\
    info.(Placement.onBlock) = false /\
    info.(Placement.surfaceY) = 0 /\
    info.(Placement.position).(x) == 80 /\
    info.(Placement.position).(y) == 0 /\
    info.(Placement.position).(z) == -15.
Proof.
  destruct (ground_placement_clamped_snapped unit demo_intersectObjects
              demo_transformDirection demo_intersectPlane [] tt) as [Hhit _].
  - intros i Hi. inversion Hi.
  - destruct (Hhit (mkVec3 83 0 (-12.6)) eq_refl)
      as (info & Hres & Hon & _ & Hs & Hy & (Hx & _) & (Hz & _) & _).
    exists info. split; [exact Hres|]. split; [exact Hon|]. split; [exact Hs|].
    split; [by rewrite Hx|]. split; [by rewrite Hy | by rewrite Hz].
Defined.



(** ** The properties on concrete worlds *)



(** C2 on a world with one 20 x 15 x 20 block on the ground: a block of
    half-extent 5 centred at Y = 100 floats, the only body's top face being
    at 15, and a 10 x 30 x 10 block 3 off the centre of that top face, with a
    gap of 0.5, is supported by it. *)
Lemma hasSupport_ground_or_block_witness :
  let s := placeBody (box_block "office" (mkVec3 0 7.5 0) (mkVec3 10 7.5 10))
                     (new_PhysicsWorld ∅) in
  hasSupport s (mkVec3 0 100 0) (mkVec3 5 5 5) = false /\
  hasSupport s (mkVec3 3 30.5 (-2)) (mkVec3 5 15 5) = true.
Proof.
  intros s. split.
  - apply (proj1 (proj2 (proj2 (proj2 (proj2 hasSupport_ground_or_block))))
             s 0 0).
    intros bPos bHalf (r & Hr & Hb).
    apply list_elem_of_singleton in Hr as ->.
    vm_compute in Hb. injection Hb as <- <-.
    vm_compute. discriminate.
  - apply (proj1 (proj2 (proj2 (proj2 (proj2 (proj2 hasSupport_ground_or_block)))))
             (new_PhysicsWorld ∅) (mkVec3 3 30.5 (-2)) (mkVec3 5 15 5)
             (mkVec3 0 7.5 0) (mkVec3 10 7.5 10)).
    split; [reflexivity|]. split; vm_compute; discriminate.
Defined.

(** C9 on the demo world: body 5 was never added, body 1 is registered
    once. *)
Lemma removeBody_unknown_noop_witness :
  removeBody 5%nat demo_world = demo_world /\
  (removeBody 1%nat demo_world).(bodies) = [] /\
  removeBody 1%nat (removeBody 1%nat demo_world) = removeBody 1%nat demo_world.
Proof.
  split.
  - apply (proj1 removeBody_unknown_noop 5%nat demo_world).
    intros H. apply list_elem_of_singleton in H. discriminate.
  - destruct (proj2 removeBody_unknown_noop 1%nat demo_world)
      as (l1 & l2 & Hl & _ & Hb & _ & _ & _ & _ & Honce).
    + apply list_elem_of_here.
    + split; [reflexivity|]. apply Honce.
      change (demo_world.(bodies)) with ([] ++ 1%nat :: []) in Hl.
      destruct l1 as [|r l1]; [|destruct l1; discriminate].
      injection Hl as <-. apply not_elem_of_nil.
Defined.

(** * Further properties *)

(** ** Queries and the set of dynamic bodies *)

Lemma getMaxHeight_bounds s :
  0 <= getMaxHeight s /\
  (forall bPos bHalf,
     dynamic_box s bPos bHalf -> bPos.(y) + bHalf.(y) <= getMaxHeight s) /\
  (getMaxHeight s == 0 \/
   exists bPos bHalf,
     dynamic_box s bPos bHalf /\ getMaxHeight s == bPos.(y) + bHalf.(y)).
Proof.
  unfold getMaxHeight.
  destruct (getMaxHeight_loop_spec s.(store) s.(bodies) 0) as (Hacc & Hall & Hex).
  pose proof (Q.max_r _ _ Hacc) as Hm.
  split; [apply Q.le_max_l|]. split.
  - intros bPos bHalf (r & Hin & Hb). rewrite Hm. eauto.
  - destruct Hex as [Heq | (r & p & h & Hin & Hb & Heq)].
    + left. by rewrite Hm.
    + right. exists p, h. split; [exists r; auto | by rewrite Hm].
Qed.

Lemma hasSupport_true s pos halfExtents :
  hasSupport s pos halfExtents = true <->
  pos.(y) - halfExtents.(y) <= 0.5 \/
  exists bPos bHalf,
    dynamic_box s bPos bHalf /\ supporting_box pos halfExtents bPos bHalf.
Proof.
  unfold hasSupport, dynamic_box.
  destruct (Js.leb _ 0.5) eqn:Hg.
  - apply leb_le in Hg. tauto.
  - rewrite hasSupport_loop_any, any_block_true. split.
    + intros (r & p & h & Hin & Hb & Ht). right. exists p, h.
      split; [eauto | by apply supports_true].
    + intros [Hle | (p & h & (r & Hin & Hb) & Ht)].
      * apply leb_le in Hle. congruence.
      * exists r, p, h. split; [|split]; auto. by apply supports_true.
Qed.

Lemma getTopYAt_loop_spec σ l qx qz h acc :
  acc <= getTopYAt_loop σ l qx qz h acc /\
  (forall r bPos bHalf,
     r ∈ l -> block_box σ r = Some (bPos, bHalf) ->
     footprint_overlap qx qz h bPos bHalf ->
     bPos.(y) + bHalf.(y) <= getTopYAt_loop σ l qx qz h acc) /\
  (getTopYAt_loop σ l qx qz h acc == acc \/
   exists r bPos bHalf,
     r ∈ l /\ block_box σ r = Some (bPos, bHalf) /\
     footprint_overlap qx qz h bPos bHalf /\
     getTopYAt_loop σ l qx qz h acc == bPos.(y) + bHalf.(y)).
Proof.
  revert acc. induction l as [|r l IH]; intros acc; cbn [getTopYAt_loop].
  - split; [apply Qle_refl|]. split; [|left; reflexivity].
    intros r ? ? Hr. inversion Hr.
  - destruct (block_box σ r) as [[bPos bHalf]|] eqn:Hb.
    + match goal with |- context [if ?c then _ else _] => destruct c eqn:Ho end.
      * apply andb_true_iff in Ho as [Hx Hz]. apply ltb_lt in Hx, Hz.
        destruct (IH (Qmax acc (bPos.(y) + bHalf.(y)))) as (Hacc & Hall & Hex).
        split; [|split].
        -- eapply Qle_trans; [apply Q.le_max_l | exact Hacc].
        -- intros r' p h' Hin Hb' Hf. apply elem_of_cons in Hin as [-> | Hin].
           ++ rewrite Hb in Hb'. injection Hb' as <- <-.
              eapply Qle_trans; [apply Q.le_max_r | exact Hacc].
           ++ eauto.
        -- destruct Hex as [Heq | (r' & p & h' & Hin & Hb' & Hf & Heq)].
           ++ destruct (Q.max_spec acc (bPos.(y) + bHalf.(y))) as [[_ Hm] | [_ Hm]].
              ** right. exists r, bPos, bHalf.
                 split; [left|]. split; [exact Hb|].
                 split; [split; assumption | by rewrite Heq].
              ** left. by rewrite Heq.
           ++ right. exists r', p, h'. split; [right; exact Hin | auto].
      * destruct (IH acc) as (Hacc & Hall & Hex).
        split; [exact Hacc|]. split.
        -- intros r' p h' Hin Hb' [Hfx Hfz].
           apply elem_of_cons in Hin as [-> | Hin]; [|by eapply Hall].
           rewrite Hb in Hb'. injection Hb' as <- <-.
           apply ltb_lt in Hfx, Hfz. rewrite Hfx, Hfz in Ho. discriminate.
        -- destruct Hex as [Heq | (r' & p & h' & Hin & Hb' & Hf & Heq)];
             [by left|].
           right. exists r', p, h'. split; [right; exact Hin | auto].
    + destruct (IH acc) as (Hacc & Hall & Hex).
      split; [exact Hacc|]. split.
      * intros r' p h' Hin Hb' Hf.
        apply elem_of_cons in Hin as [-> | Hin]; [congruence | eauto].
      * destruct Hex as [Heq | (r' & p & h' & Hin & Hb' & Hf & Heq)]; [by left|].
        right. exists r', p, h'. split; [right; exact Hin | auto].
Qed.

Lemma getTopYAt_bounds s qx qz halfExtents :
  0 <= getTopYAt s qx qz halfExtents /\
  (forall bPos bHalf,
     dynamic_box s bPos bHalf -> footprint_overlap qx qz halfExtents bPos bHalf ->
     bPos.(y) + bHalf.(y) <= getTopYAt s qx qz halfExtents) /\
  (getTopYAt s qx qz halfExtents == 0 \/
   exists bPos bHalf,
     dynamic_box s bPos bHalf /\
     footprint_overlap qx qz halfExtents bPos bHalf /\
     getTopYAt s qx qz halfExtents == bPos.(y) + bHalf.(y)).
Proof.
  unfold getTopYAt.
  destruct (getTopYAt_loop_spec s.(store) s.(bodies) qx qz halfExtents 0)
    as (Hacc & Hall & Hex).
  split; [exact Hacc|]. split.
  - intros bPos bHalf (r & Hin & Hb) Hf. eauto.
  - destruct Hex as [Heq | (r & p & h & Hin & Hb & Hf & Heq)]; [by left|].
    right. exists p, h. split; [exists r; auto | auto].
Qed.

(** X1. [getTopYAt] is the greatest top face among the dynamic bodies whose
    footprint overlaps the query footprint on both X and Z (edge contact not
    counting), and 0 when none does or all those tops are below 0; it never
    exceeds [getMaxHeight], and equals it for a query footprint that overlaps
    every dynamic body's.  A registered block counts: once a block with box
    [bPos], [bHalf] is registered, [getTopYAt] is at least its top for every
    footprint that overlaps it, and when it is the only block [getTopYAt] is
    its top (or 0 if that is lower) for those footprints and 0 for the
    others. *)
Theorem getTopYAt_greatest_overlapping_top s qx qz halfExtents :
  0 <= getTopYAt s qx qz halfExtents /\
  (forall bPos bHalf,
     dynamic_box s bPos bHalf -> footprint_overlap qx qz halfExtents bPos bHalf ->
     bPos.(y) + bHalf.(y) <= getTopYAt s qx qz halfExtents) /\
  (getTopYAt s qx qz halfExtents == 0 \/
   exists bPos bHalf,
     dynamic_box s bPos bHalf /\
     footprint_overlap qx qz halfExtents bPos bHalf /\
     getTopYAt s qx qz halfExtents == bPos.(y) + bHalf.(y)) /\
  getTopYAt s qx qz halfExtents <= getMaxHeight s /\
  ((forall bPos bHalf,
      dynamic_box s bPos bHalf -> footprint_overlap qx qz halfExtents bPos bHalf) ->
   getTopYAt s qx qz halfExtents == getMaxHeight s) /\
  (forall bPos bHalf,
     footprint_overlap qx qz halfExtents bPos bHalf ->
     bPos.(y) + bHalf.(y) <=
       getTopYAt (placeBody (box_block "office" bPos bHalf) s) qx qz halfExtents) /\
  (forall bPos bHalf,
     s.(bodies) = [] ->
     (footprint_overlap qx qz halfExtents bPos bHalf ->
      getTopYAt (placeBody (box_block "office" bPos bHalf) s) qx qz halfExtents
      == Qmax 0 (bPos.(y) + bHalf.(y))) /\
     (~ footprint_overlap qx qz halfExtents bPos bHalf ->
      getTopYAt (placeBody (box_block "office" bPos bHalf) s) qx qz halfExtents
      == 0)).
Proof.
  destruct (getTopYAt_bounds s qx qz halfExtents) as (H0 & Hall & Hsome).
  destruct (getMaxHeight_bounds s) as (H0' & Hall' & Hsome').
  assert (Hle : getTopYAt s qx qz halfExtents <= getMaxHeight s).
  { destruct Hsome as [Heq | (p & h & Hd & _ & Heq)]; rewrite Heq; auto. }
  assert (Hnew : forall bPos bHalf,
            block_box (placeBody (box_block "office" bPos bHalf) s).(store)
              (fresh (dom s.(store))) = Some (bPos, bHalf)).
  { intros bPos bHalf. by rewrite block_box_placeBody. }
  repeat (split; [assumption|]).
  split; [|split].
  - intros Hevery. apply Qle_antisym; [exact Hle|].
    destruct Hsome' as [Heq | (p & h & Hd & Heq)]; rewrite Heq; auto.
  - intros bPos bHalf Hf.
    apply (getTopYAt_bounds (placeBody (box_block "office" bPos bHalf) s)
             qx qz halfExtents); [|exact Hf].
    exists (fresh (dom s.(store))). split; [|apply Hnew].
    rewrite bodies_placeBody. apply elem_of_app. right. apply list_elem_of_here.
  - intros bPos bHalf Hs. unfold getTopYAt.
    rewrite bodies_placeBody, Hs. cbn [app getTopYAt_loop]. rewrite Hnew.
    split.
    + intros [Hx Hz]. apply ltb_lt in Hx, Hz. rewrite Hx, Hz. reflexivity.
    + intros Hf.
      destruct (Js.ltb (Qabs (qx - bPos.(x))) _) eqn:Hx; [|reflexivity].
      destruct (Js.ltb (Qabs (qz - bPos.(z))) _) eqn:Hz; [|reflexivity].
      destruct Hf. split; by apply ltb_lt.
Qed.

(** X1 on a world with one 20 x 15 x 20 block on the ground at the origin:
    a spire-sized footprint at the origin is over the block, whose top is at
    15, and the same footprint 40 away is over nothing. *)
Lemma getTopYAt_greatest_overlapping_top_witness :
  let s := placeBody (box_block "office" (mkVec3 0 7.5 0) (mkVec3 10 7.5 10))
                     (new_PhysicsWorld ∅) in
  getTopYAt s 0 0 (mkVec3 2.5 25 2.5) == 15 /\
  getTopYAt s 40 0 (mkVec3 2.5 25 2.5) == 0 /\
  getTopYAt s 0 0 (mkVec3 2.5 25 2.5) == getMaxHeight s.
Proof.
  intros s. split; [|split].
  - destruct (proj2 (proj2 (proj2 (proj2 (proj2 (proj2
                (getTopYAt_greatest_overlapping_top (new_PhysicsWorld ∅) 0 0
                   (mkVec3 2.5 25 2.5)))))))
              (mkVec3 0 7.5 0) (mkVec3 10 7.5 10) eq_refl) as [Hover _].
    unfold s. rewrite Hover; [reflexivity|]. split; reflexivity.
  - destruct (proj2 (proj2 (proj2 (proj2 (proj2 (proj2
                (getTopYAt_greatest_overlapping_top (new_PhysicsWorld ∅) 40 0
                   (mkVec3 2.5 25 2.5)))))))
              (mkVec3 0 7.5 0) (mkVec3 10 7.5 10) eq_refl) as [_ Haway].
    unfold s. apply Haway. intros [Hx _]. vm_compute in Hx. discriminate.
  - apply (proj1 (proj2 (proj2 (proj2 (proj2
             (getTopYAt_greatest_overlapping_top s 0 0 (mkVec3 2.5 25 2.5))))))).
    intros bPos bHalf (r & Hr & Hb).
    apply list_elem_of_singleton in Hr as ->.
    vm_compute in Hb. injection Hb as <- <-.
    split; reflexivity.
Defined.

Lemma block_box_set_material m b σ r :
  block_box (alter (set_material m) b σ) r = block_box σ r.
Proof.
  unfold block_box. rewrite lookup_alter.
  destruct (decide (b = r)) as [-> | _]; [|reflexivity].
  by destruct (σ !! r).
Qed.

Lemma boxes_included_addBody b s : boxes_included s (addBody b s).
Proof.
  intros bPos bHalf (r & Hin & Hb). exists r. simpl. split.
  - apply elem_of_app. by left.
  - by rewrite block_box_set_material.
Qed.

Lemma boxes_included_removeBody b s : boxes_included (removeBody b s) s.
Proof.
  intros bPos bHalf (r & Hin & Hb). exists r. split.
  - by apply (bodies_removeBody_subseteq b).
  - destruct (removeBody_fields b s) as (Hs & _). by rewrite <- Hs.
Qed.

Lemma queries_monotone s1 s2 :
  boxes_included s1 s2 ->
  getMaxHeight s1 <= getMaxHeight s2 /\
  (forall qx qz h, getTopYAt s1 qx qz h <= getTopYAt s2 qx qz h) /\
  (forall pos h, checkCollision s1 pos h = true -> checkCollision s2 pos h = true) /\
  (forall pos h t,
     isValidPlacement s2 pos h t = true -> isValidPlacement s1 pos h t = true) /\
  (forall pos h, hasSupport s1 pos h = true -> hasSupport s2 pos h = true).
Proof.
  intros Hinc. split; [|split; [|split; [|split]]].
  - destruct (getMaxHeight_bounds s1) as (_ & _ & [Heq | (p & h & Hd & Heq)]);
      destruct (getMaxHeight_bounds s2) as (H0 & Hall & _); rewrite Heq; auto.
  - intros qx qz h.
    destruct (getTopYAt_bounds s1 qx qz h)
      as (_ & _ & [Heq | (p & h' & Hd & Hf & Heq)]);
      destruct (getTopYAt_bounds s2 qx qz h)
        as (H0 & Hall & _); rewrite Heq; auto.
  - intros pos h. rewrite !checkCollision_true.
    intros (p & h' & Hd & Ho). exists p, h'. auto.
  - intros pos h t H2. apply not_false_iff_true. rewrite isValidPlacement_false.
    intros (p & h' & Hd & Ho).
    apply not_false_iff_true in H2. apply H2, isValidPlacement_false.
    exists p, h'. auto.
  - intros pos h. rewrite !hasSupport_true.
    intros [Hg | (p & h' & Hd & Hs)]; [by left|]. right. exists p, h'. auto.
Qed.

(** X2. Registering a body only adds to what the queries see: [addBody]
    never lowers [getMaxHeight] or [getTopYAt], never turns a collision into
    none, never makes an invalid placement valid, and never takes support
    away. *)
Theorem addBody_only_adds b s :
  getMaxHeight s <= getMaxHeight (addBody b s) /\
  (forall qx qz h, getTopYAt s qx qz h <= getTopYAt (addBody b s) qx qz h) /\
  (forall pos h,
     checkCollision s pos h = true -> checkCollision (addBody b s) pos h = true) /\
  (forall pos h t,
     isValidPlacement s pos h t = false ->
     isValidPlacement (addBody b s) pos h t = false) /\
  (forall pos h,
     hasSupport s pos h = true -> hasSupport (addBody b s) pos h = true).
Proof.
  destruct (queries_monotone s (addBody b s) (boxes_included_addBody b s))
    as (Hh & Ht & Hc & Hv & Hs).
  repeat (split; [assumption|]). split; [|exact Hs].
  intros pos h t Hf. apply not_true_iff_false. intros Hv'.
  apply Hv in Hv'. congruence.
Qed.

(** X2 on the demo world: the position the foundation block occupies stays
    blocked when a spire is registered on top of it. *)
Lemma addBody_only_adds_witness :
  let s := (alloc (box_block "spire" (mkVec3 0 40 0) (mkVec3 2.5 25 2.5))
              demo_world).2 in
  checkCollision (addBody 2%nat s) (mkVec3 0 7.5 0) (mkVec3 5 5 5) = true.
Proof.
  intros s.
  apply (proj1 (proj2 (proj2 (addBody_only_adds 2%nat s)))).
  reflexivity.
Defined.

(** X3. Unregistering only takes away: after [removeBody],
    [getMaxHeight] and [getTopYAt] are no higher, no new collision appears,
    a valid placement stays valid, and no support appears. *)
Theorem removeBody_only_removes b s :
  getMaxHeight (removeBody b s) <= getMaxHeight s /\
  (forall qx qz h, getTopYAt (removeBody b s) qx qz h <= getTopYAt s qx qz h) /\
  (forall pos h,
     checkCollision s pos h = false -> checkCollision (removeBody b s) pos h = false) /\
  (forall pos h t,
     isValidPlacement s pos h t = true ->
     isValidPlacement (removeBody b s) pos h t = true) /\
  (forall pos h,
     hasSupport s pos h = false -> hasSupport (removeBody b s) pos h = false).
Proof.
  destruct (queries_monotone (removeBody b s) s (boxes_included_removeBody b s))
    as (Hh & Ht & Hc & Hv & Hs).
  split; [exact Hh|]. split; [exact Ht|]. split; [|split; [exact Hv|]].
  - intros pos h Hf. apply not_true_iff_false. intros Hc'.
    apply Hc in Hc'. congruence.
  - intros pos h Hf. apply not_true_iff_false. intros Hs'.
    apply Hs in Hs'. congruence.
Qed.

(** X3 on the demo world: a free position stays free when the block is
    removed. *)
Lemma removeBody_only_removes_witness :
  checkCollision (removeBody 1%nat demo_world) (mkVec3 40 7.5 0) (mkVec3 5 5 5)
  = false.
Proof.
  apply (proj1 (proj2 (proj2 (removeBody_only_removes 1%nat demo_world)))).
  reflexivity.
Defined.

(** ** Stacking *)

Lemma no_overlap_above pos h bPos bHalf t :
  0 <= t -> bPos.(y) + bHalf.(y) <= pos.(y) - h.(y) ->
  ~ boxes_overlap t pos h bPos bHalf.
Proof.
  intros Ht Htop (_ & Hy & _).
  pose proof (Qle_Qabs (pos.(y) - bPos.(y))) as Habs. lra.
Qed.

Lemma centred_projection_overlap c ch b bh :
  0 <= ch -> ch * 0.2 <= bh -> Qabs (c - b) <= bh ->
  ch * 0.4 <= projection_overlap c ch b bh.
Proof.
  intros Hch Hbh Hc. apply Qabs_Qle_condition in Hc as [Hlo Hhi].
  unfold projection_overlap.
  eapply Qle_trans; [|apply Q.le_max_r].
  destruct (Q.min_spec (c + ch) (b + bh)) as [[_ Hmin] | [_ Hmin]];
    destruct (Q.max_spec (c - ch) (b - bh)) as [[_ Hmax] | [_ Hmax]];
    rewrite Hmin, Hmax; lra.
Qed.



(** X5. A candidate centred over a block is supported by it: when some
    dynamic body's top face is within 1.0 of the candidate's bottom face, the
    candidate's centre lies over that body's footprint, and the body's
    half-extents on X and Z are at least 0.2 times the candidate's (which are
    not negative), [hasSupport] is true. *)
Theorem centred_over_block_is_supported s pos h bPos bHalf :
  dynamic_box s bPos bHalf ->
  Qabs (bPos.(y) + bHalf.(y) - (pos.(y) - h.(y))) < 1 ->
  centred_over pos bPos bHalf ->
  0 <= h.(x) -> 0 <= h.(z) ->
  h.(x) * 0.2 <= bHalf.(x) -> h.(z) * 0.2 <= bHalf.(z) ->
  hasSupport s pos h = true.
Proof.
  intros Hd Hnear [Hcx Hcz] Hx Hz Hbx Hbz.
  apply hasSupport_true. right. exists bPos, bHalf.
  split; [exact Hd|]. split; [exact Hnear|].
  split; by apply centred_projection_overlap.
Qed.

(** X5 on the demo world: a spire 7 off the foundation block's centre, its
    bottom 0.4 above the block's top. *)
Lemma centred_over_block_is_supported_witness :
  hasSupport demo_world (mkVec3 7 40.4 (-9)) (mkVec3 2.5 25 2.5) = true.
Proof.
  apply (centred_over_block_is_supported demo_world (mkVec3 7 40.4 (-9))
           (mkVec3 2.5 25 2.5) (mkVec3 0 7.5 0) (mkVec3 (20 / 2) (15 / 2) (20 / 2))).
  - exists 1%nat. split; [apply list_elem_of_here | reflexivity].
  - reflexivity.
  - split; vm_compute; discriminate.
  - discriminate.
  - discriminate.
  - vm_compute. discriminate.
  - vm_compute. discriminate.
Defined.

(** X6. Stacking on the top of the tower is a valid placement:
    [checkPlacementValidity] is true for a candidate whose bottom face is at
    [getMaxHeight], centred over a dynamic body whose top face is at that
    height and whose half-extents on X and Z are at least 0.2 times the
    candidate's. *)
Theorem stacking_on_top_is_valid s pos h bPos bHalf :
  dynamic_box s bPos bHalf ->
  bPos.(y) + bHalf.(y) == getMaxHeight s ->
  pos.(y) - h.(y) == getMaxHeight s ->
  centred_over pos bPos bHalf ->
  0 <= h.(x) -> 0 <= h.(z) ->
  h.(x) * 0.2 <= bHalf.(x) -> h.(z) * 0.2 <= bHalf.(z) ->
  checkPlacementValidity s pos h = true.
Proof.
  intros Hd Htop Hbottom [Hcx Hcz] Hx Hz Hbx Hbz.
  unfold checkPlacementValidity, isValidPlacement_default.
  set (p := mkVec3 pos.(x) pos.(y) pos.(z)).
  assert (Hv : isValidPlacement s p h 0.5 = true).
  { apply not_false_iff_true. rewrite isValidPlacement_false.
    intros (b & bh & Hd' & Ho).
    apply (no_overlap_above p h b bh 0.5); [discriminate | | exact Ho].
    destruct (getMaxHeight_bounds s) as (_ & Hall & _).
    unfold p. cbn [y]. rewrite Hbottom. by apply Hall. }
  rewrite Hv. cbn [negb].
  apply hasSupport_true. right. exists bPos, bHalf.
  split; [exact Hd|]. unfold supporting_box, p. cbn [x y z]. split.
  - assert (E : bPos.(y) + bHalf.(y) - (pos.(y) - h.(y)) == 0) by lra.
    rewrite E. reflexivity.
  - split; by apply centred_projection_overlap.
Qed.

(** X6 on the demo world: an office block centred 5 off the foundation
    block's centre, resting on its top at height 15. *)
Lemma stacking_on_top_is_valid_witness :
  checkPlacementValidity demo_world (mkVec3 5 30 5) (mkVec3 5 15 5) = true.
Proof.
  apply (stacking_on_top_is_valid demo_world (mkVec3 5 30 5) (mkVec3 5 15 5)
           (mkVec3 0 7.5 0) (mkVec3 (20 / 2) (15 / 2) (20 / 2))).
  - exists 1%nat. split; [apply list_elem_of_here | reflexivity].
  - reflexivity.
  - reflexivity.
  - split; vm_compute; discriminate.
  - discriminate.
  - discriminate.
  - vm_compute. discriminate.
  - vm_compute. discriminate.
Defined.

(** ** The catalogue *)

Lemma BLOCK_TYPES_cases blockType :
  (catalogue_key blockType /\ exists config, BLOCK_TYPES blockType = Some config) \/
  (~ catalogue_key blockType /\ BLOCK_TYPES blockType = None).
Proof.
  unfold BLOCK_TYPES, catalogue_key.
  destruct (String.eqb_spec blockType "foundation") as [-> | H1];
    [left; split; [auto | by eexists]|].
  destruct (String.eqb_spec blockType "office") as [-> | H2];
    [left; split; [auto | by eexists]|].
  destruct (String.eqb_spec blockType "spire") as [-> | H3];
    [left; split; [auto | by eexists]|].
  right. split; [tauto | reflexivity].
Qed.

Lemma catalogue_half_extents blockType h :
  getBlockHalfExtents blockType = Some h ->
  catalogue_key blockType /\
  0 < h.(x) /\ 0 < h.(y) /\ 0 < h.(z) /\
  getBlockHeightOffset blockType = h.(y) /\
  2.5 <= h.(x) <= 10 /\ 2.5 <= h.(z) <= 10 /\
  forall m pos,
    createBlock m blockType pos =
      Some {| mass := match BLOCK_TYPES blockType with
                      | Some config => config.(Config.mass)
                      | None => 0
                      end;
              position := mkVec3 pos.(x) pos.(y) pos.(z);
              shapes := [Box h];
              material :=
                Some (OptionsMaterial
                        match BLOCK_TYPES blockType with
                        | Some config => config.(Config.friction)
                        | None => 0
                        end 0.1);
              linearDamping := Some 0.1; angularDamping := Some 0.3;
              userData := Some (mkUserData (Some m) (Some blockType)) |}.
Proof.
  unfold getBlockHalfExtents, getBlockHeightOffset, createBlock, createBlockBody.
  destruct (BLOCK_TYPES_cases blockType) as [[Hk (config & Hc)] | [_ Hc]];
    rewrite Hc; [|discriminate].
  intros H. injection H as <-. split; [exact Hk|]. cbn [x y z].
  destruct Hk as [-> | [-> | ->]]; vm_compute in Hc; injection Hc as <-;
    repeat split; try discriminate.
Qed.

(** X7. The catalogue's getters agree.  For a key that is missing from
    [BLOCK_TYPES], being neither one of its three keys nor a name inherited
    from [Object.prototype], [getBlockHalfExtents], [getBlockSize],
    [createBlockBody] and [createBlock] all answer [null] and
    [getBlockHeightOffset] answers 0.  For "foundation", "office" and
    "spire", none of which is an inherited name, the half-extents are
    positive and half the size, the height offset is the half-extent on Y,
    and the body [createBlockBody] makes is one box of those half-extents at
    the position asked for, with positive mass. *)
Theorem catalogue_getters_agree blockType :
  (~ catalogue_key blockType -> ~ inherited_key blockType ->
   getBlockHalfExtents blockType = None /\ getBlockSize blockType = None /\
   getBlockHeightOffset blockType = 0 /\
   (forall pos, createBlockBody blockType pos = None) /\
   (forall m pos, createBlock m blockType pos = None)) /\
  (catalogue_key blockType ->
   ~ inherited_key blockType /\
   exists h size,
     getBlockHalfExtents blockType = Some h /\
     getBlockSize blockType = Some size /\
     0 < h.(x) /\ 0 < h.(y) /\ 0 < h.(z) /\
     size.(x) == 2 * h.(x) /\ size.(y) == 2 * h.(y) /\ size.(z) == 2 * h.(z) /\
     getBlockHeightOffset blockType == h.(y) /\
     forall pos,
       exists body,
         createBlockBody blockType pos = Some body /\
         body.(shapes) = [Box h] /\ body.(position) = pos /\
         0 < body.(mass) /\ body.(userData) = None).
Proof.
  split.
  - intros Hk _.
    destruct (BLOCK_TYPES_cases blockType) as [[Hk' _] | [_ Hc]]; [tauto|].
    unfold getBlockHalfExtents, getBlockSize, getBlockHeightOffset, createBlock,
      createBlockBody. rewrite Hc. repeat split.
  - intros Hk. split.
    + unfold inherited_key, Object_prototype_keys.
      destruct Hk as [-> | [-> | ->]]; cbn [In];
        intros H; repeat (destruct H as [H | H]; [discriminate H|]); exact H.
    + unfold getBlockHalfExtents, getBlockSize, getBlockHeightOffset,
        createBlockBody.
      destruct Hk as [-> | [-> | ->]]; cbn; eexists; eexists;
        (repeat (split; [reflexivity|])); intros [px py pz]; eexists;
        (repeat (split; [reflexivity|])); reflexivity.
Qed.

(** X7 on two keys: "crane" is missing from the catalogue, "spire" is in
    it. *)
Lemma catalogue_getters_agree_witness :
  getBlockHalfExtents "crane" = None /\
  exists h, getBlockHalfExtents "spire" = Some h /\ 0 < h.(y).
Proof.
  split.
  - apply (proj1 (catalogue_getters_agree "crane")).
    + intros [H | [H | H]]; discriminate H.
    + unfold inherited_key, Object_prototype_keys. cbn [In].
      intros H. repeat (destruct H as [H | H]; [discriminate H|]). exact H.
  - destruct (proj2 (catalogue_getters_agree "spire")) as (_ & h & size & Hh & _ & _ & Hy & _).
    + right. right. reflexivity.
    + exists h. auto.
Defined.

(** ** Bodies as the queries see them *)

Lemma createBlockBody_known blockType h pos :
  getBlockHalfExtents blockType = Some h ->
  exists body,
    createBlockBody blockType pos = Some body /\ body.(userData) = None.
Proof.
  unfold getBlockHalfExtents, createBlockBody.
  destruct (BLOCK_TYPES blockType); [|discriminate].
  intros _. by eexists.
Qed.

Lemma createBlock_unknown m blockType pos :
  ~ catalogue_key blockType -> createBlock m blockType pos = None.
Proof.
  intros Hk.
  destruct (BLOCK_TYPES_cases blockType) as [[Hk' _] | [_ Hc]]; [tauto|].
  unfold createBlock, createBlockBody. by rewrite Hc.
Qed.

Lemma block_box_lookup σ r :
  block_box σ r = match σ !! r with Some body => body_box body | None => None end.
Proof. reflexivity. Qed.

Lemma block_box_placeBody_new body s :
  block_box (placeBody body s).(store) (fresh (dom s.(store))) = body_box body.
Proof. apply block_box_placeBody. Qed.

Lemma block_box_placeBody_old body s r :
  is_Some (s.(store) !! r) ->
  block_box (placeBody body s).(store) r = block_box s.(store) r.
Proof.
  intros Hr. unfold placeBody, alloc, addBody. cbn [store].
  rewrite block_box_set_material. unfold block_box.
  rewrite lookup_insert_ne; [reflexivity|].
  intros <-. apply (is_fresh (dom s.(store))). by apply elem_of_dom.
Qed.

Lemma dynamic_box_placeBody body s bPos bHalf :
  registered_allocated s ->
  dynamic_box (placeBody body s) bPos bHalf <->
  dynamic_box s bPos bHalf \/ body_box body = Some (bPos, bHalf).
Proof.
  intros Halloc. unfold dynamic_box. rewrite bodies_placeBody. split.
  - intros (r & Hin & Hb). apply elem_of_app in Hin as [Hin | Hin].
    + left. exists r. split; [exact Hin|].
      by rewrite <- (block_box_placeBody_old body s r (Halloc r Hin)).
    + apply list_elem_of_singleton in Hin as ->.
      right. by rewrite <- (block_box_placeBody_new body s).
  - intros [(r & Hin & Hb) | Hb].
    + exists r. split; [apply elem_of_app; by left|].
      by rewrite (block_box_placeBody_old body s r (Halloc r Hin)).
    + exists (fresh (dom s.(store))).
      split; [apply elem_of_app; right; apply list_elem_of_here|].
      by rewrite block_box_placeBody_new.
Qed.

Lemma getMaxHeight_placeBody body s bPos bHalf :
  registered_allocated s ->
  body_box body = Some (bPos, bHalf) ->
  getMaxHeight (placeBody body s) == Qmax (getMaxHeight s) (bPos.(y) + bHalf.(y)).
Proof.
  intros Halloc Hbox.
  destruct (getMaxHeight_bounds (placeBody body s)) as (H0 & Hall & Hsome).
  destruct (getMaxHeight_bounds s) as (H0' & Hall' & Hsome').
  apply Qle_antisym.
  - destruct Hsome as [Heq | (p & h & Hd & Heq)]; rewrite Heq.
    + eapply Qle_trans; [exact H0' | apply Q.le_max_l].
    + apply (dynamic_box_placeBody body s p h Halloc) in Hd as [Hd | Hd].
      * eapply Qle_trans; [by apply Hall' | apply Q.le_max_l].
      * rewrite Hbox in Hd. injection Hd as <- <-. apply Q.le_max_r.
  - apply Q.max_lub.
    + destruct Hsome' as [Heq | (p & h & Hd & Heq)]; rewrite Heq; [exact H0|].
      apply Hall, dynamic_box_placeBody; auto.
    + apply Hall, dynamic_box_placeBody; auto.
Qed.

Lemma body_box_createBlock m blockType pos body h :
  getBlockHalfExtents blockType = Some h ->
  createBlock m blockType pos = Some body ->
  body_box body = Some (pos, h).
Proof.
  intros Hh Hb.
  destruct (catalogue_half_extents blockType h Hh) as (Hk & _ & _ & _ & _ & _ & _ & Hc).
  rewrite Hc in Hb. injection Hb as <-.
  unfold body_box, has_blockType. cbn.
  destruct pos as [px py pz].
  by destruct Hk as [-> | [-> | ->]].
Qed.

(** X8. The link [createBlock] makes is what the queries look for.  A body
    of [createBlock], once registered, is a dynamic body with the
    catalogue's half-extents at the position it was created at: its top
    counts for [getMaxHeight] and its own box collides.  The same body
    straight from [createBlockBody], which sets no [userData], is registered
    but seen by no query. *)
Theorem createBlock_bodies_are_seen m blockType pos h s :
  getBlockHalfExtents blockType = Some h ->
  (exists body,
     createBlock m blockType pos = Some body /\
     dynamic_box (placeBody body s) pos h /\
     pos.(y) + h.(y) <= getMaxHeight (placeBody body s) /\
     checkCollision (placeBody body s) pos h = true) /\
  (exists body,
     createBlockBody blockType pos = Some body /\
     fresh (dom s.(store)) ∈ getBodies (placeBody body s) /\
     block_box (placeBody body s).(store) (fresh (dom s.(store))) = None).
Proof.
  intros Hh.
  destruct (catalogue_half_extents blockType h Hh)
    as (Hk & Hx & Hy & Hz & _ & _ & _ & Hc).
  split.
  - eexists. split; [apply Hc|].
    set (body := mkBody _ _ _ _ _ _ _).
    assert (Hbox : body_box body = Some (pos, h))
      by (apply (body_box_createBlock m blockType pos); [exact Hh | apply Hc]).
    assert (Hd : dynamic_box (placeBody body s) pos h).
    { exists (fresh (dom s.(store))).
      split; [rewrite bodies_placeBody; apply elem_of_app; right;
              apply list_elem_of_here|].
      by rewrite block_box_placeBody_new. }
    split; [exact Hd|]. split.
    + by apply (getMaxHeight_bounds (placeBody body s)).
    + apply checkCollision_true. exists pos, h. split; [exact Hd|].
      assert (E : forall a, Qabs (a - a) == 0).
      { intros a. assert (E0 : a - a == 0) by ring. by rewrite E0. }
      unfold strict_overlap. rewrite !E. repeat split; lra.
  - destruct (createBlockBody_known blockType h pos Hh) as (body & Hb & Hud).
    exists body. split; [exact Hb|]. split.
    + unfold getBodies. rewrite bodies_placeBody.
      apply elem_of_app. right. apply list_elem_of_here.
    + rewrite block_box_placeBody_new. unfold body_box, has_blockType.
      by rewrite Hud.
Qed.

(** X8 on a new world: an office block created at (0, 15, 0) and
    registered occupies its box. *)
Lemma createBlock_bodies_are_seen_witness :
  exists body,
    createBlock 100%nat "office" (mkVec3 0 15 0) = Some body /\
    checkCollision (placeBody body (new_PhysicsWorld ∅))
      (mkVec3 0 15 0) (mkVec3 (10 / 2) (30 / 2) (10 / 2)) = true.
Proof.
  destruct (proj1 (createBlock_bodies_are_seen 100%nat "office" (mkVec3 0 15 0)
                     (mkVec3 (10 / 2) (30 / 2) (10 / 2)) (new_PhysicsWorld ∅)
                     eq_refl))
    as (body & Hb & _ & _ & Hc).
  exists body. split; assumption.
Defined.

(** ** Dropping blocks from above *)

(** X9. The drop-from-above [placeBlock] spawns clear of the tower: the
    block's bottom face is 80 above [getMaxHeight], so at its spawn position
    it collides with nothing and rests on nothing, and once it is registered
    [getMaxHeight] has grown by 80 plus the block's height.  With no block
    type selected, or one that is not in the catalogue, [placeBlock] changes
    nothing. *)
Theorem placeBlock_spawns_clear m blockType pos s h :
  getBlockHalfExtents blockType = Some h ->
  registered_allocated s ->
  let sp := spawnPosition s blockType pos in
  sp.(y) - h.(y) == getMaxHeight s + 80 /\
  checkCollision s sp h = false /\
  hasSupport s sp h = false /\
  getMaxHeight (placeBlock m (Some blockType) pos s) ==
    getMaxHeight s + 80 + 2 * h.(y) /\
  placeBlock m None pos s = s /\
  (forall other, ~ catalogue_key other -> placeBlock m (Some other) pos s = s).
Proof.
  intros Hh Halloc sp.
  destruct (catalogue_half_extents blockType h Hh)
    as (Hk & Hx & Hy & Hz & Hoff & _ & _ & Hc).
  destruct (getMaxHeight_bounds s) as (H0 & Hall & _).
  assert (Hbottom : sp.(y) - h.(y) == getMaxHeight s + 80).
  { unfold sp, spawnPosition. cbn [y]. rewrite Hoff. ring. }
  split; [exact Hbottom|]. split; [|split; [|split; [|split]]].
  - apply not_true_iff_false. rewrite checkCollision_true.
    intros (bPos & bHalf & Hd & Ho). apply boxes_overlap_0 in Ho.
    apply (no_overlap_above sp h bPos bHalf 0); [apply Qle_refl | | exact Ho].
    specialize (Hall bPos bHalf Hd). lra.
  - apply not_true_iff_false. rewrite hasSupport_true.
    intros [Hg | (bPos & bHalf & Hd & Hnear & _)].
    + lra.
    + specialize (Hall bPos bHalf Hd).
      apply Qabs_Qlt_condition in Hnear as [Hnear _]. lra.
  - unfold placeBlock.
    assert (Hsel : selected (Some blockType) = true)
      by (by destruct Hk as [-> | [-> | ->]]).
    rewrite Hsel. cbn [negb]. rewrite Hc.
    rewrite (getMaxHeight_placeBody _ s sp h Halloc).
    + rewrite Q.max_r; lra.
    + apply (body_box_createBlock m blockType sp); [exact Hh | apply Hc].
  - reflexivity.
  - intros other Hother. unfold placeBlock.
    destruct (selected (Some other)); [|reflexivity]. cbn [negb].
    by rewrite (createBlock_unknown m other _ Hother).
Qed.

(** X9 on the demo world (height 15): a spire dropped over the origin. *)
Lemma placeBlock_spawns_clear_witness :
  getMaxHeight (placeBlock 101%nat (Some "spire"%string) (mkVec3 0 0 0) demo_world)
  == 15 + 80 + 50.
Proof.
  destruct (placeBlock_spawns_clear 101%nat "spire" (mkVec3 0 0 0) demo_world
              (mkVec3 (5 / 2) (50 / 2) (5 / 2)) eq_refl)
    as (_ & _ & _ & Hh & _).
  - intros r Hr. apply list_elem_of_singleton in Hr as ->. by eexists.
  - rewrite Hh. reflexivity.
Defined.

(** ** Snapping, again *)

Lemma round_integer (k : Z) : Js.round (inject_Z k) == inject_Z k.
Proof.
  destruct (round_near (inject_Z k)) as [Hlo Hhi].
  unfold Js.round in *.
  set (f := Qfloor (inject_Z k + (1 # 2))) in *.
  assert (H1 : inject_Z k < inject_Z (f + 1)).
  { rewrite inject_Z_plus. change (inject_Z 1) with 1. lra. }
  assert (H2 : inject_Z f < inject_Z (k + 1)).
  { rewrite inject_Z_plus. change (inject_Z 1) with 1. lra. }
  rewrite <- Zlt_Qlt in H1, H2.
  assert (E : f = k) by lia. by rewrite E.
Qed.

Lemma snap_fixed (g a : Q) :
  ~ g == 0 ->
  Js.round (Js.round (a / g) * g / g) * g == Js.round (a / g) * g.
Proof.
  intros Hg.
  assert (E : Js.round (a / g) * g / g == Js.round (a / g)) by (field; exact Hg).
  unfold Js.round at 1. rewrite E. fold (Js.round (Js.round (a / g))).
  unfold Js.round at 2. by rewrite round_integer.
Qed.

Lemma snap_near (g a : Q) : 0 < g -> Qabs (Js.round (a / g) * g - a) <= g / 2.
Proof.
  intros Hg. destruct (round_near (a / g)) as [Hlo Hhi].
  assert (E : a == a / g * g) by (field; lra).
  assert (Hh : g / 2 == g * (1 # 2)) by (field).
  apply Qabs_Qle_condition. rewrite Hh.
  assert (H1 : (a / g - (1 # 2)) * g <= Js.round (a / g) * g)
    by (apply Qmult_le_compat_r; lra).
  assert (H2 : Js.round (a / g) * g <= (a / g + (1 # 2)) * g)
    by (apply Qmult_le_compat_r; lra).
  split; lra.
Qed.

(** X10. [snapPositionToGrid] keeps Y, moves X and Z by at most half a grid
    cell, and is idempotent: snapping a snapped position changes nothing.
    With [snapToGrid] off it returns the position itself. *)
Theorem snapPositionToGrid_idempotent c pos :
  0 < c.(gridSize) ->
  let p := snapPositionToGrid c pos in
  p.(y) = pos.(y) /\
  Qabs (p.(x) - pos.(x)) <= c.(gridSize) / 2 /\
  Qabs (p.(z) - pos.(z)) <= c.(gridSize) / 2 /\
  (snapPositionToGrid c p).(x) == p.(x) /\
  (snapPositionToGrid c p).(y) = p.(y) /\
  (snapPositionToGrid c p).(z) == p.(z) /\
  (c.(snapToGrid) = false -> p = pos).
Proof.
  intros Hg p. unfold p, snapPositionToGrid.
  assert (Hg0 : ~ c.(gridSize) == 0) by lra.
  assert (Hz : forall a, Qabs (a - a) <= c.(gridSize) / 2).
  { intros a. assert (E0 : a - a == 0) by ring. rewrite E0.
    assert (Hh : c.(gridSize) / 2 == c.(gridSize) * (1 # 2)) by field.
    rewrite Hh. change (Qabs 0) with 0. lra. }
  destruct c.(snapToGrid); cbn [negb x y z].
  - split; [reflexivity|]. split; [by apply snap_near|].
    split; [by apply snap_near|]. split; [by apply snap_fixed|].
    split; [reflexivity|]. split; [by apply snap_fixed | discriminate].
  - split; [reflexivity|]. split; [apply Hz|]. split; [apply Hz|].
    repeat split; reflexivity.
Qed.

(** X10 on the controls as constructed: (12.4, 30, -3.1) snaps to
    (10, 30, -5), which snaps to itself. *)
Lemma snapPositionToGrid_idempotent_witness :
  let p := snapPositionToGrid new_GameControls (mkVec3 12.4 30 (-3.1)) in
  p.(x) == 10 /\ p.(z) == -5 /\
  (snapPositionToGrid new_GameControls p).(x) == p.(x).
Proof.
  intros p.
  destruct (snapPositionToGrid_idempotent new_GameControls (mkVec3 12.4 30 (-3.1)))
    as (_ & _ & _ & Hx & _).
  - reflexivity.
  - split; [reflexivity|]. split; [reflexivity | exact Hx].
Defined.

(** ** Zoom *)

(** X11. [onWheel] keeps the camera radius within [50, 300] whatever the
    radius and the wheel delta, does not move a radius of that range when the
    delta is 0, zooms monotonically in the delta, and the radius the
    constructor starts from is in the range. *)
Theorem onWheel_radius_in_range :
  (forall deltaY radius,
     50 <= onWheel deltaY radius /\ onWheel deltaY radius <= 300) /\
  (forall radius, 50 <= radius -> radius <= 300 -> onWheel 0 radius == radius) /\
  (forall d1 d2 radius, d1 <= d2 -> onWheel d1 radius <= onWheel d2 radius) /\
  (50 <= initial_radius /\ initial_radius <= 300).
Proof.
  split; [|split; [|split]].
  - intros deltaY radius. unfold onWheel. split; [apply Q.le_max_l|].
    apply Q.max_lub; [discriminate | apply Q.le_min_l].
  - intros radius Hlo Hhi. unfold onWheel.
    assert (E : radius + 0 * 0.5 == radius) by ring.
    rewrite E, (Q.min_r 300 radius Hhi). by apply Q.max_r.
  - intros d1 d2 radius Hd. unfold onWheel.
    apply Q.max_le_compat_l, Q.min_le_compat_l. lra.
  - split; discriminate.
Qed.

(** X11 at radius 290: a wheel delta of 100 stops at 300, and a smaller
    delta zooms no further. *)
Lemma onWheel_radius_in_range_witness :
  onWheel 100 290 == 300 /\ onWheel 10 290 <= onWheel 100 290.
Proof.
  split; [reflexivity|].
  apply (proj1 (proj2 (proj2 onWheel_radius_in_range)) 10 100 290).
  discriminate.
Defined.

(** ** An empty registry *)

(** X12. With no body registered, as in a new world and after [reset],
    every query gives the ground's answer: [getTopYAt] is 0, every placement
    is valid at every tolerance, and [hasSupport] and
    [checkPlacementValidity] are true exactly for a bottom face at most
    0.5. *)
Theorem empty_registry_answers s :
  s.(bodies) = [] ->
  (forall qx qz h, getTopYAt s qx qz h = 0) /\
  (forall pos h t, isValidPlacement s pos h t = true) /\
  (forall pos h, hasSupport s pos h = Js.leb (pos.(y) - h.(y)) 0.5) /\
  (forall pos h,
     checkPlacementValidity s pos h = true <-> pos.(y) - h.(y) <= 0.5).
Proof.
  intros Hs.
  assert (Hsup : forall pos h, hasSupport s pos h = Js.leb (pos.(y) - h.(y)) 0.5).
  { intros pos h. unfold hasSupport. rewrite Hs. cbn [hasSupport_loop].
    by destruct (Js.leb _ _). }
  split; [|split; [|split; [exact Hsup|]]].
  - intros qx qz h. unfold getTopYAt. by rewrite Hs.
  - intros pos h t. unfold isValidPlacement. by rewrite Hs.
  - intros pos h. unfold checkPlacementValidity, isValidPlacement_default,
      isValidPlacement. rewrite Hs. cbn [isValidPlacement_loop negb].
    rewrite Hsup. cbn [y]. apply leb_le.
Qed.

(** X12 after a reset of the demo world: a block resting on the ground is
    a valid placement. *)
Lemma empty_registry_answers_witness :
  checkPlacementValidity (reset demo_world) (mkVec3 0 7.5 0)
    (mkVec3 10 7.5 10) = true.
Proof.
  apply (empty_registry_answers (reset demo_world)); [reflexivity|].
  vm_compute. discriminate.
Defined.

(** ** Candidates *)

Section Candidate_properties.

Variable Ray : Type.
Variable intersectObjects : Ray -> list ref -> list THREE.Intersection.
Variable transformDirection : Vec3 -> ref -> Vec3.
Variable intersectPlane : Ray -> option Vec3.

Local Abbreviation top := (top_face transformDirection).
Local Abbreviation hits := (block_hits intersectObjects).
Local Abbreviation resolve :=
  (getPlacementPosition intersectObjects transformDirection intersectPlane).

Lemma block_placement_some c l info :
  block_placement transformDirection c l = Some info ->
  exists i,
    i ∈ l /\ top i = true /\
    info.(Placement.onBlock) = true /\
    info.(Placement.targetBlock) = Some i.(THREE.object) /\
    info.(Placement.surfaceY) = i.(THREE.point).(y) /\
    info.(Placement.position).(y) = i.(THREE.point).(y).
Proof.
  induction l as [|k l IH]; simpl; [discriminate|].
  destruct (top k) eqn:Hk.
  - intros H. injection H as <-. exists k.
    split; [apply list_elem_of_here | auto].
  - intros H. destruct (IH H) as (i & Hi & Hrest).
    exists i. split; [by apply list_elem_of_further | exact Hrest].
Qed.

Lemma resolve_cases c ray info :
  resolve c ray = Some info ->
  (exists i,
     i ∈ hits c ray /\ top i = true /\
     info.(Placement.onBlock) = true /\
     info.(Placement.targetBlock) = Some i.(THREE.object) /\
     info.(Placement.surfaceY) = i.(THREE.point).(y) /\
     info.(Placement.position).(y) = i.(THREE.point).(y)) \/
  (info.(Placement.onBlock) = false /\
   info.(Placement.targetBlock) = None /\
   info.(Placement.surfaceY) = 0 /\
   info.(Placement.position).(y) = 0 /\
   intersectPlane ray <> None).
Proof.
  rewrite getPlacementPosition_hits.
  destruct (block_placement _ c (hits c ray)) as [info'|] eqn:Hb.
  - intros H. injection H as <-. left. by apply (block_placement_some c).
  - unfold ground_placement. destruct (intersectPlane ray); [|discriminate].
    intros H. injection H as <-. right. repeat split. discriminate.
Qed.

(** X13. Whatever the controls' settings, a candidate that
    [getPlacementPosition] returns is of one of two shapes: on a block, with
    [onBlock] true, the struck object as target and the height of a
    qualifying intersection; or on the ground, with [onBlock] false, no
    target and height 0.  In both, the candidate's Y is its [surfaceY], so
    the box centre [confirmPlacement] derives from it has its bottom face at
    [surfaceY]. *)
Theorem placement_candidate_shape c ray info :
  resolve c ray = Some info ->
  info.(Placement.position).(y) = info.(Placement.surfaceY) /\
  (info.(Placement.onBlock) = true <-> info.(Placement.targetBlock) <> None) /\
  (info.(Placement.onBlock) = false -> info.(Placement.surfaceY) = 0) /\
  (info.(Placement.onBlock) = true ->
   exists i,
     i ∈ hits c ray /\ top i = true /\
     info.(Placement.targetBlock) = Some i.(THREE.object) /\
     info.(Placement.surfaceY) = i.(THREE.point).(y)) /\
  (forall h, (placement_centre info h).(y) - h.(y) == info.(Placement.surfaceY)).
Proof.
  intros H.
  assert (Hc : forall h, (placement_centre info h).(y) - h.(y)
                         == info.(Placement.surfaceY))
    by (intros h; unfold placement_centre; cbn [set_y y]; ring).
  destruct (resolve_cases c ray info H)
    as [(i & Hi & Ht & Hon & Htg & Hs & Hy) | (Hon & Htg & Hs & Hy & _)].
  - split; [congruence|]. split; [rewrite Hon, Htg; split; [discriminate | auto]|].
    split; [congruence|]. split; [intros _; exists i; auto | exact Hc].
  - split; [congruence|]. split; [rewrite Hon, Htg; split; [discriminate | congruence]|].
    split; [auto|]. split; [congruence | exact Hc].
Qed.

(** X14. A candidate on the ground is always supported: for the box centre
    [confirmPlacement] and [updateGhostBlock] derive from an on-ground
    candidate, [hasSupport] is true in every world and for every
    half-extents, so [checkPlacementValidity] comes down to
    [isValidPlacement] at the default tolerance 0.5. *)
Theorem ground_candidate_is_supported c ray info :
  resolve c ray = Some info ->
  info.(Placement.onBlock) = false ->
  forall s h,
    hasSupport s (placement_centre info h) h = true /\
    checkPlacementValidity s (placement_centre info h) h =
      isValidPlacement_default s (placement_centre info h) h.
Proof.
  intros H Hon s h.
  destruct (resolve_cases c ray info H)
    as [(i & _ & _ & Hon' & _) | (_ & _ & Hs & _)]; [congruence|].
  assert (Hsup : hasSupport s (placement_centre info h) h = true).
  { apply hasSupport_true. left.
    unfold placement_centre. cbn [set_y y]. rewrite Hs. lra. }
  split; [exact Hsup|].
  unfold checkPlacementValidity, placement_centre, set_y. cbn [x y z].
  unfold placement_centre, set_y in Hsup. rewrite Hsup.
  by destruct (isValidPlacement_default _ _ _).
Qed.

End Candidate_properties.

(** X13 on the demo scene with blocks 7 and 8: the candidate is on a
    block. *)
Lemma placement_candidate_shape_witness :
  exists info,
    getPlacementPosition demo_intersectObjects demo_transformDirection
      demo_intersectPlane (setBlockMeshes [7%nat; 8%nat] new_GameControls) tt
      = Some info /\
    info.(Placement.position).(y) = info.(Placement.surfaceY).
Proof.
  eexists. split; [reflexivity|].
  apply (placement_candidate_shape unit demo_intersectObjects
           demo_transformDirection demo_intersectPlane
           (setBlockMeshes [7%nat; 8%nat] new_GameControls) tt).
  reflexivity.
Defined.

(** X14 on the demo scene without blocks, in the demo world: the ground
    candidate at (80, 0, -15) is supported for a spire. *)
Lemma ground_candidate_is_supported_witness :
  exists info,
    getPlacementPosition demo_intersectObjects demo_transformDirection
      demo_intersectPlane (setBlockMeshes [] new_GameControls) tt = Some info /\
    hasSupport demo_world (placement_centre info (mkVec3 2.5 25 2.5))
      (mkVec3 2.5 25 2.5) = true.
Proof.
  eexists. split; [reflexivity|].
  apply (ground_candidate_is_supported unit demo_intersectObjects
           demo_transformDirection demo_intersectPlane
           (setBlockMeshes [] new_GameControls) tt); reflexivity.
Defined.

(** ** The game *)

Lemma game_inv_frame g g' :
  g'.(physics) = g.(physics) -> g'.(controls) = g.(controls) ->
  g'.(blocks) = g.(blocks) -> g'.(meshes_made) = g.(meshes_made) ->
  game_inv g -> game_inv g'.
Proof.
  destruct g, g'. simpl. intros -> -> -> -> [? ? ? ? ? ? ? ?].
  by constructor.
Qed.

Lemma game_inv_new : game_inv new_Game.
Proof.
  constructor; simpl; try reflexivity; try apply NoDup_nil_2.
  - split; reflexivity.
  - intros b Hb. inversion Hb.
  - exists 0%nat. split; [reflexivity|]. split; [apply not_elem_of_nil|].
    split; [|by eexists].
    apply elem_of_union. left. by apply elem_of_singleton.
  - intros r Hr. inversion Hr.
Qed.

Lemma confirmPlacement_cases placementInfo g :
  confirmPlacement placementInfo g = g \/
  exists blockType h body,
    g.(selectedBlockType) = Some blockType /\
    g.(currentPlacementValid) = true /\
    getBlockHalfExtents blockType = Some h /\
    createBlock (fresh g.(meshes_made)) blockType
      (placement_centre placementInfo h) = Some body /\
    confirmPlacement placementInfo g =
      {| physics := placeBody body g.(physics);
         controls :=
           setBlockMeshes
             (map block_mesh
                (g.(blocks) ++ [mkBlock (fresh g.(meshes_made))
                                        (fresh (dom g.(physics).(store)))]))
             g.(controls);
         selectedBlockType := None; ghostBlock := None;
         blocks := g.(blocks) ++ [mkBlock (fresh g.(meshes_made))
                                          (fresh (dom g.(physics).(store)))];
         currentPlacementValid := false; lastPlacementInfo := None;
         meshes_made := {[ fresh g.(meshes_made) ]} ∪ g.(meshes_made) |}.
Proof.
  unfold confirmPlacement.
  destruct (selected g.(selectedBlockType)) eqn:Hsel; [|by left].
  destruct g.(currentPlacementValid) eqn:Hv; [|by left]. cbn [negb orb].
  destruct g.(selectedBlockType) as [blockType|] eqn:Hs; [|by left].
  destruct (getBlockHalfExtents blockType) as [h|] eqn:Hh; [|by left].
  change (mkVec3 _ _ _) with (placement_centre placementInfo h).
  destruct (createBlock _ blockType _) as [body|] eqn:Hb; [|by left].
  right. exists blockType, h, body.
  split; [reflexivity|]. split; [reflexivity|]. split; [exact Hh|].
  split; [exact Hb | reflexivity].
Qed.

Lemma game_inv_confirm placementInfo g :
  game_inv g -> game_inv (confirmPlacement placementInfo g).
Proof.
  intros Hinv.
  destruct (confirmPlacement_cases placementInfo g)
    as [-> | (blockType & h & body & Hs & Hv & Hh & Hb & ->)]; [exact Hinv|].
  destruct Hinv as [Hbodies Hmeshes Hgrid Hnd Hndm Hmade
                    (gr & Hg & Hgr & Hgw & Hgs) Hblocks].
  set (r := fresh (dom g.(physics).(store))).
  set (m := fresh g.(meshes_made)).
  assert (Hr : forall r', is_Some (g.(physics).(store) !! r') -> r' <> r).
  { intros r' Hsome E. apply (is_fresh (dom g.(physics).(store))).
    fold r. rewrite <- E. by apply elem_of_dom. }
  assert (Hrb : r ∉ g.(physics).(bodies)).
  { intros Hin. destruct (Hblocks r Hin) as (b' & _ & _ & Hl & _).
    apply (Hr r); [by eexists | reflexivity]. }
  assert (Hbox : body_box body = Some (placement_centre placementInfo h, h))
    by (by apply (body_box_createBlock m blockType)).
  constructor; cbn [physics controls blocks meshes_made].
  - rewrite bodies_placeBody, map_app, Hbodies. reflexivity.
  - reflexivity.
  - exact Hgrid.
  - rewrite bodies_placeBody. apply NoDup_app. split; [exact Hnd|]. split.
    + intros r' Hin Hr'. apply list_elem_of_singleton in Hr' as ->. by apply Hrb.
    + apply NoDup_singleton.
  - rewrite map_app. apply NoDup_app. split; [exact Hndm|]. split.
    + intros m' Hin Hm'. apply list_elem_of_singleton in Hm'. cbn in Hm'. subst m'.
      apply list_elem_of_fmap in Hin as (b' & Hb' & Hin).
      apply (is_fresh g.(meshes_made)). fold m. rewrite Hb'. by apply Hmade.
    + apply NoDup_singleton.
  - intros b' Hin. apply elem_of_app in Hin as [Hin | Hin].
    + apply elem_of_union. right. by apply Hmade.
    + apply list_elem_of_singleton in Hin as ->.
      apply elem_of_union. left. by apply elem_of_singleton.
  - exists gr. split; [exact Hg|]. rewrite bodies_placeBody. split; [|split].
    + rewrite elem_of_app, list_elem_of_singleton.
      intros [Hin | ->]; [by apply Hgr | by apply (Hr r)].
    + unfold placeBody, alloc, addBody. cbn [world world_bodies World_addBody].
      apply elem_of_union. by right.
    + unfold placeBody, alloc, addBody. cbn [store].
      rewrite lookup_alter, decide_False by (intros E; by apply (Hr gr)).
      rewrite lookup_insert_ne by (intros E; by apply (Hr gr)). exact Hgs.
  - intros r' Hin. rewrite bodies_placeBody in Hin.
    unfold placeBody, alloc, addBody.
    cbn [store world world_bodies World_addBody defaultMaterial].
    fold r. apply elem_of_app in Hin as [Hin | Hin].
    + destruct (Hblocks r' Hin) as (b' & k & h' & Hl & Hbt & Hh' & Hsh & Hm & Hw).
      assert (Hne : r <> r') by (intros E; apply (Hr r'); [by eexists | auto]).
      exists b', k, h'. rewrite lookup_alter, decide_False by exact Hne.
      rewrite lookup_insert_ne by exact Hne.
      repeat (split; [assumption|]). apply elem_of_union. by right.
    + apply list_elem_of_singleton in Hin as ->.
      exists (set_material g.(physics).(defaultMaterial) body), blockType, h.
      rewrite lookup_alter, decide_True by reflexivity.
      rewrite lookup_insert_eq. split; [reflexivity|].
      assert (Hfields : has_blockType body = true /\ body.(shapes) = [Box h]).
      { destruct (catalogue_half_extents blockType h Hh)
          as (Hk & _ & _ & _ & _ & _ & _ & Hc).
        rewrite Hc in Hb. injection Hb as <-. split; [|reflexivity].
        unfold has_blockType. cbn. by destruct Hk as [-> | [-> | ->]]. }
      destruct Hfields as [Hbt Hsh].
      split; [exact Hbt|]. split; [exact Hh|]. split; [exact Hsh|].
      split; [reflexivity|].
      apply elem_of_union. left. by apply elem_of_singleton.
Qed.

Lemma game_inv_reset g : game_inv g -> game_inv (Game_reset g).
Proof.
  intros [Hbodies Hmeshes Hgrid Hnd Hndm Hmade (gr & Hg & Hgr & Hgw & Hgs) Hblocks].
  unfold Game_reset, updateBlockMeshesForRaycast, cancelPlacement.
  constructor; cbn [physics controls blocks meshes_made map setBlockMeshes
                    blockMeshes gridSize snapToGrid]; rewrite ?reset_eq;
    cbn [bodies store world groundBody defaultMaterial].
  - reflexivity.
  - reflexivity.
  - exact Hgrid.
  - apply NoDup_nil_2.
  - apply NoDup_nil_2.
  - intros b Hb. inversion Hb.
  - exists gr. split; [exact Hg|]. split; [apply not_elem_of_nil|].
    split; [|exact Hgs]. cbn [World_without world_bodies].
    rewrite elem_of_difference, elem_of_list_to_set. auto.
  - intros r Hr. inversion Hr.
Qed.

Section Game_properties.

Variable Ray : Type.
Variable intersectObjects : Ray -> list ref -> list THREE.Intersection.
Variable transformDirection : Vec3 -> ref -> Vec3.
Variable intersectPlane : Ray -> option Vec3.
Variable step : Q -> Q -> Z -> World -> gmap ref Body -> gmap ref Body.
Hypothesis step_moves : moves_only step.

Local Abbreviation ghost_update :=
  (updateGhostBlock intersectObjects transformDirection intersectPlane).
Local Abbreviation clicked :=
  (click intersectObjects transformDirection intersectPlane).
Local Abbreviation frame :=
  (animate intersectObjects transformDirection intersectPlane step).
Local Abbreviation in_play :=
  (played intersectObjects transformDirection intersectPlane step).

Lemma updateGhostBlock_frame ray g :
  (ghost_update ray g).(physics) = g.(physics) /\
  (ghost_update ray g).(controls) = g.(controls) /\
  (ghost_update ray g).(blocks) = g.(blocks) /\
  (ghost_update ray g).(meshes_made) = g.(meshes_made) /\
  (ghost_update ray g).(selectedBlockType) = g.(selectedBlockType).
Proof.
  unfold updateGhostBlock.
  destruct g.(ghostBlock); [|by repeat split].
  destruct g.(selectedBlockType) as [blockType|] eqn:Hs;
    [|rewrite Hs; by repeat split].
  destruct (negb _); [rewrite Hs; by repeat split|].
  destruct (getGhostPlacementPosition _ _ _ _ _); [|by repeat split].
  destruct (getBlockHalfExtents blockType); [|rewrite Hs]; by repeat split.
Qed.

Lemma game_inv_click ray g : game_inv g -> game_inv (clicked ray g).
Proof.
  intros Hinv. unfold click, onPlaceBlock.
  destruct (getPlacementPosition _ _ _ _ _) as [info|]; [|exact Hinv].
  destruct (_ && _); [by apply game_inv_confirm | exact Hinv].
Qed.

Lemma game_inv_animate deltaTime ray g : game_inv g -> game_inv (frame deltaTime ray g).
Proof.
  intros [Hbodies Hmeshes Hgrid Hnd Hndm Hmade (gr & Hg & Hgr & Hgw & Hgs) Hblocks].
  unfold animate.
  destruct (updateGhostBlock_frame ray
              {| physics := update step deltaTime g.(physics);
                 controls := g.(controls);
                 selectedBlockType := g.(selectedBlockType);
                 ghostBlock := g.(ghostBlock); blocks := g.(blocks);
                 currentPlacementValid := g.(currentPlacementValid);
                 lastPlacementInfo := g.(lastPlacementInfo);
                 meshes_made := g.(meshes_made) |})
    as (Hp & Hc & Hb & Hm & _).
  eapply game_inv_frame; [exact Hp | exact Hc | exact Hb | exact Hm |].
  assert (Hkeep : forall r body,
            g.(physics).(store) !! r = Some body ->
            exists body',
              step (1 / 60) deltaTime 3%Z g.(physics).(world) g.(physics).(store)
                !! r = Some body' /\ same_but_position body body').
  { intros r body Hl.
    pose proof (step_moves (1 / 60) deltaTime 3%Z g.(physics).(world)
                  g.(physics).(store) r) as Hstep.
    rewrite Hl in Hstep. inversion Hstep as [? body' Hsame |]; subst.
    by exists body'. }
  constructor; cbn [physics controls blocks meshes_made update bodies store
                    world groundBody defaultMaterial]; try assumption.
  - exists gr. split; [exact Hg|]. split; [exact Hgr|]. split; [exact Hgw|].
    destruct Hgs as [body Hl]. destruct (Hkeep gr body Hl) as (body' & Hl' & _).
    by exists body'.
  - intros r Hr.
    destruct (Hblocks r Hr) as (body & k & h & Hl & Hbt & Hh & Hsh & Hmat & Hw).
    destruct (Hkeep r body Hl) as (body' & Hl' & (_ & Hs' & Hm' & _ & _ & Hu')).
    exists body', k, h. split; [exact Hl'|]. split.
    + unfold has_blockType in *. by rewrite <- Hu'.
    + split; [exact Hh|]. split; [congruence|]. split; [congruence | exact Hw].
Qed.

Lemma played_game_inv g : in_play g -> game_inv g.
Proof.
  induction 1 as [| type g _ IH | g _ IH | ray g _ IH | g _ IH
                 | deltaTime ray g _ IH].
  - exact game_inv_new.
  - unfold selectBlockType. destruct (match _ with Some _ => _ | None => _ end);
      by apply (game_inv_frame g).
  - by apply (game_inv_frame g).
  - by apply game_inv_click.
  - by apply game_inv_reset.
  - by apply game_inv_animate.
Qed.

(** X15. Throughout a game, [blocks], the physics registry and the list of
    meshes the raycaster is given name the same blocks in the same order,
    and none twice: the n-th registered body is the body of the n-th block,
    whose mesh is the n-th raycast mesh. *)
Theorem game_lists_stay_in_step g :
  in_play g ->
  map block_body g.(blocks) = getBodies g.(physics) /\
  g.(controls).(blockMeshes) = map block_mesh g.(blocks) /\
  length g.(controls).(blockMeshes) = length (getBodies g.(physics)) /\
  NoDup (getBodies g.(physics)) /\
  NoDup g.(controls).(blockMeshes).
Proof.
  intros Hplay. destruct (played_game_inv g Hplay) as [Hb Hm _ Hnd Hndm _ _ _].
  unfold getBodies. split; [exact Hb|]. split; [exact Hm|]. split.
  - by rewrite Hm, <- Hb, !length_map.
  - split; [exact Hnd | by rewrite Hm].
Qed.

(** X16. Throughout a game the registry is well formed: the ground body is
    simulated and never registered, and every registered body is simulated,
    carries the default material and is a box of the catalogue that the
    queries see.  A registered body being registered once, [removeBody]
    takes it out of the registry altogether. *)
Theorem game_registry_well_formed g :
  in_play g ->
  ground_not_registered g.(physics) /\
  ground_simulated g.(physics) /\
  registered_allocated g.(physics) /\
  registered_default g.(physics) /\
  (forall r, r ∈ g.(physics).(bodies) ->
     (r ∈ g.(physics).(world).(world_bodies)) /\
     (r ∉ (removeBody r g.(physics)).(bodies)) /\
     exists bPos blockType h,
       block_box g.(physics).(store) r = Some (bPos, h) /\
       getBlockHalfExtents blockType = Some h).
Proof.
  intros Hplay.
  destruct (played_game_inv g Hplay)
    as [_ _ _ Hnd _ _ (gr & Hg & Hgr & Hgw & Hgs) Hblocks].
  split; [|split; [|split; [|split]]].
  - intros g' Hg'. congruence.
  - by exists gr.
  - intros r Hr. destruct (Hblocks r Hr) as (body & _ & _ & Hl & _). by eexists.
  - intros r Hr.
    destruct (Hblocks r Hr) as (body & _ & _ & Hl & _ & _ & _ & Hm & _).
    by exists body.
  - intros r Hr.
    destruct (Hblocks r Hr) as (body & k & h & Hl & Hbt & Hh & Hsh & _ & Hw).
    split; [exact Hw|]. split.
    + destruct (removeBody_in r g.(physics) Hr) as (l1 & l2 & Hl12 & Hl1 & ->).
      cbn [bodies]. rewrite Hl12 in Hnd.
      apply NoDup_app in Hnd as (_ & _ & Hnd2).
      apply NoDup_cons in Hnd2 as [Hl2 _].
      rewrite elem_of_app. tauto.
    + exists body.(position), k, h. split; [|exact Hh].
      unfold block_box. by rewrite Hl, Hbt, Hsh.
Qed.

End Game_properties.

Lemma demo_step_moves : moves_only demo_step.
Proof.
  intros fixedTimeStep deltaTime maxSubSteps w σ r. unfold demo_step.
  rewrite lookup_fmap. destruct (σ !! r); constructor. repeat split.
Qed.

Lemma demo_game_played :
  played ground_intersectObjects demo_transformDirection ground_intersectPlane
    demo_step demo_game.
Proof.
  unfold demo_game, demo_game_previewed, demo_game_first.
  repeat (first [apply played_click | apply played_animate
                | apply played_select | apply played_new]).
Qed.

(** X15 on the demo game, which has placed two blocks. *)
Lemma game_lists_stay_in_step_witness :
  map block_body demo_game.(blocks) = getBodies demo_game.(physics) /\
  length demo_game.(blocks) = 2%nat.
Proof.
  destruct (game_lists_stay_in_step Vec3 ground_intersectObjects
              demo_transformDirection ground_intersectPlane demo_step
              demo_step_moves demo_game demo_game_played) as (Hb & _).
  split; [exact Hb | reflexivity].
Defined.

(** X16 on the demo game. *)
Lemma game_registry_well_formed_witness :
  ground_not_registered demo_game.(physics) /\
  ground_simulated demo_game.(physics).
Proof.
  destruct (game_registry_well_formed Vec3 ground_intersectObjects
              demo_transformDirection ground_intersectPlane demo_step
              demo_step_moves demo_game demo_game_played) as (Hg & Hs & _).
  split; assumption.
Defined.

(** X17. [confirmPlacement] places one block, and only on the flag: with no
    type selected, the flag [currentPlacementValid] off, or a type the
    catalogue lacks, it changes nothing, and so does a click.  Otherwise it
    registers one block of the selected type whose bottom face is at the
    candidate's [surfaceY], whatever [checkPlacementValidity] would say of
    that candidate, then clears the selection and the flag, so that
    confirming again, or clicking again, places nothing more. *)
Theorem confirmPlacement_places_once placementInfo g :
  (selected g.(selectedBlockType) = false \/ g.(currentPlacementValid) = false ->
   confirmPlacement placementInfo g = g /\ onPlaceBlock placementInfo g = g) /\
  (forall blockType,
     g.(selectedBlockType) = Some blockType -> ~ catalogue_key blockType ->
     confirmPlacement placementInfo g = g) /\
  (forall blockType h,
     g.(selectedBlockType) = Some blockType ->
     g.(currentPlacementValid) = true ->
     getBlockHalfExtents blockType = Some h ->
     let g' := confirmPlacement placementInfo g in
     let centre := placement_centre placementInfo h in
     g' = onPlaceBlock placementInfo g /\
     length g'.(blocks) = S (length g.(blocks)) /\
     length (getBodies g'.(physics)) = S (length (getBodies g.(physics))) /\
     dynamic_box g'.(physics) centre h /\
     centre.(y) - h.(y) == placementInfo.(Placement.surfaceY) /\
     g'.(selectedBlockType) = None /\
     g'.(currentPlacementValid) = false /\
     confirmPlacement placementInfo g' = g' /\
     onPlaceBlock placementInfo g' = g').
Proof.
  split; [|split].
  - intros Hoff. unfold onPlaceBlock, confirmPlacement.
    destruct Hoff as [-> | ->]; rewrite ?andb_false_r, ?orb_true_r; by split.
  - intros blockType Hs Hk.
    destruct (confirmPlacement_cases placementInfo g)
      as [-> | (k & h & body & Hs' & _ & Hh & _)]; [reflexivity|].
    rewrite Hs in Hs'. injection Hs' as <-.
    by destruct (catalogue_half_extents blockType h Hh) as (Hk' & _).
  - intros blockType h Hs Hv Hh g' centre.
    destruct (catalogue_half_extents blockType h Hh)
      as (Hk & _ & _ & _ & _ & _ & _ & Hc).
    assert (Hsel : selected g.(selectedBlockType) = true)
      by (rewrite Hs; by destruct Hk as [-> | [-> | ->]]).
    destruct (confirmPlacement_cases placementInfo g)
      as [Hsame | (k & h' & body & Hs' & _ & Hh' & Hb & Hg')].
    { exfalso. unfold confirmPlacement in Hsame.
      rewrite Hsel, Hv, Hs, Hh in Hsame. cbn [negb orb] in Hsame.
      change (mkVec3 _ _ _) with (placement_centre placementInfo h) in Hsame.
      rewrite Hc in Hsame.
      apply (f_equal currentPlacementValid) in Hsame. cbn in Hsame. congruence. }
    rewrite Hs in Hs'. injection Hs' as <-.
    rewrite Hh in Hh'. injection Hh' as <-.
    assert (Hbox : body_box body = Some (centre, h))
      by (by apply (body_box_createBlock (fresh g.(meshes_made)) blockType)).
    split; [unfold onPlaceBlock; by rewrite Hsel, Hv|].
    unfold g'. rewrite Hg'.
    cbn [blocks physics selectedBlockType currentPlacementValid].
    unfold getBodies. rewrite bodies_placeBody, !length_app.
    split; [cbn; lia|]. split; [cbn; lia|]. split.
    + exists (fresh (dom g.(physics).(store))). rewrite bodies_placeBody.
      split; [apply elem_of_app; right; apply list_elem_of_here|].
      by rewrite block_box_placeBody_new.
    + split; [unfold centre, placement_centre; cbn [set_y y]; ring|].
      repeat split.
Qed.

(** X17 on the demo game: the flag was set for a preview 40 away, the click
    came over the origin, and the second foundation block was placed in the
    box of the first, where [checkPlacementValidity] is false. *)
Lemma confirmPlacement_places_once_witness :
  let info := Placement.mk (mkVec3 0 0 0) 0 false None in
  let h := mkVec3 (20 / 2) (15 / 2) (20 / 2) in
  demo_game = confirmPlacement info demo_game_previewed /\
  checkPlacementValidity demo_game_previewed.(physics)
    (placement_centre info h) h = false /\
  dynamic_box demo_game.(physics) (placement_centre info h) h /\
  length demo_game.(blocks) = S (length demo_game_previewed.(blocks)).
Proof.
  intros info h.
  destruct (proj2 (proj2 (confirmPlacement_places_once info demo_game_previewed))
              "foundation"%string h eq_refl eq_refl eq_refl)
    as (Hon & Hlen & _ & Hd & _).
  assert (E : demo_game = confirmPlacement info demo_game_previewed)
    by (rewrite Hon; reflexivity).
  split; [exact E|]. split; [reflexivity|]. rewrite E. split; assumption.
Defined.

Lemma Game_reset_eq g :
  Game_reset g =
    {| physics := reset g.(physics);
       controls := setBlockMeshes [] g.(controls);
       selectedBlockType := None; ghostBlock := None; blocks := [];
       currentPlacementValid := false; lastPlacementInfo := None;
       meshes_made := g.(meshes_made) |}.
Proof. reflexivity. Qed.

(** X18. [reset] of the game empties the three lists together, drops the
    selection and the flag, and brings the height display to 0; a click
    right after it places nothing, and a second [reset] changes nothing. *)
Theorem Game_reset_clears g :
  let g' := Game_reset g in
  g'.(blocks) = [] /\ getBodies g'.(physics) = [] /\
  g'.(controls).(blockMeshes) = [] /\
  g'.(selectedBlockType) = None /\ g'.(currentPlacementValid) = false /\
  heightMeter g' == 0 /\
  (forall placementInfo, onPlaceBlock placementInfo g' = g') /\
  Game_reset g' = g' /\
  (game_inv g -> game_inv g').
Proof.
  intros g'. unfold g'.
  assert (Hb : (reset g.(physics)).(bodies) = []) by (by rewrite reset_eq).
  split; [reflexivity|].
  split; [rewrite Game_reset_eq; exact Hb|].
  split; [reflexivity|]. split; [reflexivity|]. split; [reflexivity|].
  split; [|split; [reflexivity|split]].
  - rewrite Game_reset_eq. unfold heightMeter, getMaxHeight. cbn [physics].
    rewrite Hb. reflexivity.
  - rewrite !Game_reset_eq. cbn [physics controls meshes_made].
    by rewrite (reset_empty _ Hb).
  - apply game_inv_reset.
Qed.

(** X18 on the demo game. *)
Lemma Game_reset_clears_witness : game_inv (Game_reset demo_game).
Proof.
  apply (Game_reset_clears demo_game).
  apply (played_game_inv Vec3 ground_intersectObjects demo_transformDirection
           ground_intersectPlane demo_step demo_step_moves).
  exact demo_game_played.
Defined.

(** ** Resting at [getTopYAt] *)

